(** * anaya_libros: paginated capture of web documents into one PDF

    A shallow embedding of [main.py] (the original entry point, with a
    hard-coded [LINKS] table) and [src/main.py] (the packaged entry point,
    which reads [LINKS] from a YAML configuration), and the properties the
    specification states about them.

    The browser is an object the program only talks to through method
    calls, so it is an interface here ([WebDriver]); every call is recorded
    in a log.  The [while True] pagination loop has no bound in the source:
    it is given fuel, and running out of fuel is an outcome of its own,
    distinct from returning and from raising. *)

From Stdlib Require Import Ascii String DecimalString DecimalNat OrderedTypeEx.
From stdpp Require Import base option list strings gmap.

Open Scope string_scope.
Open Scope list_scope.

(** ** The Python run-time the two scripts rely on *)

Module Py.

(** The exception classes that can leave the modelled functions. *)
Inductive exn : Type :=
| TimeoutException          (* selenium: WebDriverWait.until gave up *)
| NoSuchElementException    (* selenium: find_element found nothing *)
| TypeError                 (* ["disabled" in None] *)
| IndexError                (* [pil_images[0]] on an empty list *)
| FileNotFoundError         (* builtin open / load_config *)
| UnidentifiedImageError    (* PIL: the file is there but is no image *)
| YAMLError                 (* yaml.safe_load on something that is no YAML *)
| AttributeError            (* [.get] / [.items] on a value that is no dict *)
| ValueError                (* PIL: unknown file extension *)
| KeyError                  (* PIL: no multi-frame writer for the format *)
| OSError                   (* a truncated image, a full disk, ... *)
| IsADirectoryError         (* builtin open on a directory *)
| PermissionError           (* builtin open / os.makedirs without the right *)
| FileExistsError           (* os.makedirs on a path that is a file *)
| NotADirectoryError        (* os.mkdir below a path that is a file *)
| UnicodeDecodeError        (* reading binary data as text *)
| WebDriverException.       (* selenium: a command the browser refuses *)

Inductive outcome (A : Type) : Type :=
| Ok (a : A)
| Raise (e : exn)
| OutOfFuel.
Arguments Ok {A} a.
Arguments Raise {A} e.
Arguments OutOfFuel {A}.

(** State and exceptions: a computation maps a state to an outcome and
    the state it left behind (also when it raised). *)
Definition M (S A : Type) : Type := S -> outcome A * S.

Definition ret {S A} (a : A) : M S A := fun s => (Ok a, s).
Definition raise {S A} (e : exn) : M S A := fun s => (Raise e, s).
Definition spin {S A} : M S A := fun s => (OutOfFuel, s).

Definition bind {S A B} (m : M S A) (k : A -> M S B) : M S B :=
  fun s =>
    match m s with
    | (Ok a, s') => k a s'
    | (Raise e, s') => (Raise e, s')
    | (OutOfFuel, s') => (OutOfFuel, s')
    end.

(** [try: body finally: cleanup].  The cleanup runs on return and on
    raise; an exception of the cleanup replaces the pending one.  A body
    that never finishes never reaches it. *)
Definition try_finally {S A} (body : M S A) (cleanup : M S unit) : M S A :=
  fun s =>
    match body s with
    | (OutOfFuel, s') => (OutOfFuel, s')
    | (r, s') =>
        match cleanup s' with
        | (Ok _, s'') => (r, s'')
        | (Raise e, s'') => (Raise e, s'')
        | (OutOfFuel, s'') => (OutOfFuel, s'')
        end
    end.

(** [os.path.join(a, b)] on a POSIX system. *)
Fixpoint ends_with_slash (a : string) : bool :=
  match a with
  | "" => false
  | String c "" => Ascii.eqb c "/"%char
  | String _ a' => ends_with_slash a'
  end.

Definition path_join (a b : string) : string :=
  if String.prefix "/" b then b
  else if (String.eqb a "" || ends_with_slash a)%bool then a +:+ b
  else a +:+ "/" +:+ b.

(** [str(n)] for a non-negative int. *)
Definition str_of_nat (n : nat) : string :=
  NilEmpty.string_of_uint (Nat.to_uint n).

(** [int(s)] on a string of decimal digits. *)
Definition int_of_str (s : string) : option nat :=
  Nat.of_uint <$> NilEmpty.uint_of_string s.

Fixpoint zeros (k : nat) : string :=
  match k with
  | 0 => ""
  | S k' => String "0" (zeros k')
  end.

(** [f"{n:04}"]: the decimal digits, zero-filled on the left up to a
    minimum width of 4 (wider numbers are printed in full). *)
Definition format_04 (n : nat) : string :=
  let d := str_of_nat n in
  zeros (4 - String.length d) +:+ d.

(** [sub in s] on strings. *)
Fixpoint str_in (sub s : string) : bool :=
  (String.prefix sub s ||
   match s with
   | "" => false
   | String _ s' => str_in sub s'
   end)%bool.

End Py.
Export Py.

Declare Scope py_scope.
Delimit Scope py_scope with py.
Notation "'let*' x ':=' m 'in' k" := (bind m (fun x => k))
  (at level 10, x name, m at level 100, k at level 200) : py_scope.
Notation "m ';;' k" := (bind m (fun _ => k))
  (at level 100, k at level 200, right associativity) : py_scope.

(** ** Pillow: images, colour modes, PDF output *)

Module Pillow.

(** The colour modes used here: grey, grey + alpha, colour, colour +
    alpha. *)
Inductive mode : Type := L | LA | RGB | RGBA.

Record image : Type := Image {
  im_mode : mode;
  im_size : nat * nat;            (* width, height *)
  im_data : list (list N)         (* one list of band values per pixel *)
}.

(** One pixel of the given mode as a three-band pixel. *)
Definition pixel_to_rgb (m : mode) (px : list N) : list N :=
  match m, px with
  | L, [l] => [l; l; l]
  | LA, [l; _] => [l; l; l]
  | RGB, _ => px
  | RGBA, [r; g; b; _] => [r; g; b]
  | _, _ => px
  end.

(** [im.convert("RGB")]. *)
Definition convert_rgb (im : image) : image :=
  {| im_mode := RGB;
     im_size := im_size im;
     im_data := pixel_to_rgb (im_mode im) <$> im_data im |}.

End Pillow.
Export Pillow.

(** ** YAML documents as [yaml.safe_load] returns them *)

#[warnings="-register-all"]
Inductive yaml : Type :=
| YNull
| YStr (s : string)
| YSeq (items : list yaml)
| YMap (entries : list (string * yaml)).   (* a dict, in insertion order *)

(** [d.get(key, default)] on the entries of a dict. *)
Fixpoint dict_get {V} (key : string) (entries : list (string * V)) (default : V) : V :=
  match entries with
  | [] => default
  | (k, v) :: rest => if String.eqb k key then v else dict_get key rest default
  end.

(** ** The file system *)

(** What is found at a path. *)
Inductive file : Type :=
| FImage (im : image)             (* a file Pillow can open and load *)
| FPdf (pages : list image)       (* a PDF, one image per page *)
| FYaml (doc : yaml)              (* a text file holding a YAML document *)
| FDir                            (* a directory *)
| FTruncated                      (* an image file that has been cut short *)
| FText                           (* a text that is no YAML document *)
| FLocked.                        (* a file that may not be read *)

Abbreviation filesystem := (gmap string file).

(** [Image.open(path).convert("RGB")] up to the conversion: the builtin
    [open] fails on a missing file, on a directory and on a file that may
    not be read; Pillow fails on a file it cannot identify as an image,
    and, when [convert] loads the pixels, on an image that is cut short. *)
Definition image_open (path : string) (fs : filesystem) : outcome image :=
  match fs !! path with
  | None => Raise FileNotFoundError
  | Some (FImage im) => Ok im
  | Some FDir => Raise IsADirectoryError
  | Some FLocked => Raise PermissionError
  | Some FTruncated => Raise OSError
  | Some (FPdf _ | FYaml _ | FText) => Raise UnidentifiedImageError
  end.

(** [c.lower()] on an ASCII letter. *)
Definition lower_ascii (c : ascii) : ascii :=
  let n := nat_of_ascii c in
  if (Nat.leb 65 n && Nat.leb n 90)%bool then ascii_of_nat (n + 32) else c.

(** [s.lower()], on the ASCII letters of [s]. *)
Fixpoint lower (s : string) : string :=
  match s with
  | "" => ""
  | String c s' => String (lower_ascii c) (lower s')
  end.

(** The part of a path after its last slash. *)
Fixpoint basename (path : string) : string :=
  match path with
  | "" => ""
  | String c rest =>
      if str_in "/" rest then basename rest
      else if Ascii.eqb c "/" then rest
      else String c rest
  end.

Fixpoint strip_dots (name : string) : string :=
  match name with
  | String c rest => if Ascii.eqb c "." then strip_dots rest else name
  | "" => ""
  end.

(** The part of [name] from its last dot on, when it has a dot. *)
Fixpoint from_last_dot (name : string) : option string :=
  match name with
  | "" => None
  | String c rest =>
      match from_last_dot rest with
      | Some ext => Some ext
      | None => if Ascii.eqb c "." then Some name else None
      end
  end.

(** [os.path.splitext(path)[1]]: the extension of the last component,
    whose leading dots do not count. *)
Definition splitext_ext (path : string) : string :=
  default "" (from_last_dot (strip_dots (basename path))).

(** What Pillow and the operating system decide when an image is saved. *)
Class Host : Type := {
  (* builtin open(path, "w+b"): the exception it raises, if any
     (a missing directory, no right to write, ...) *)
  open_for_writing : string -> option exn;
  (* the PDF writer stores a colour page JPEG-coded: the page as a reader
     of the PDF gets it back *)
  pdf_page : image -> image;
  pdf_page_mode : forall im, im_mode (pdf_page im) = im_mode im;
  pdf_page_size : forall im, im_size (pdf_page im) = im_size im;
  pdf_page_data : forall im, length (im_data (pdf_page im)) = length (im_data im);
  (* a name whose extension, in lower case, is not .pdf: the file Pillow
     makes of the images, or the exception it raises before it opens the
     file; an extension Pillow does not know is a ValueError *)
  save_as : string -> list image -> exn + file;
  save_as_no_extension : forall ims, save_as "" ims = inl ValueError
}.

(** [first.save(path, save_all=True, append_images=rest)]: no format is
    given, so the extension of [path] decides it; the images are
    [first :: rest]. *)
Definition image_save {host : Host} (ims : list image) (path : string) : M filesystem unit :=
  fun fs =>
    let ext := lower (splitext_ext path) in
    let made := if String.eqb ext ".pdf" then inr (FPdf (pdf_page <$> ims))
                else save_as ext ims in
    match made with
    | inr f =>
        match open_for_writing path with
        | None => (Ok tt, <[path := f]> fs)
        | Some e => (Raise e, fs)
        end
    | inl e => (Raise e, fs)
    end.

(** ** The browser session (selenium's WebDriver) *)

Inductive By : Type := CSS_SELECTOR | ID.

Definition locator : Type := By * string.

(** The calls the scripts make on the driver and on the elements it hands
    out.  [B] is the state of the browser, [E] the type of element
    handles. *)
Class WebDriver (B E : Type) : Type := {
  (* driver.get(url) *)
  get : string -> B -> B;
  (* WebDriverWait(driver, timeout).until(EC.presence_of_element_located(loc)):
     the browser as it is when the element has shown up, or None when the
     timeout has passed without it *)
  until_present : nat -> locator -> B -> option B;
  (* what the page does while the script sleeps *)
  idle : nat -> B -> B;
  (* driver.find_element(by, value) *)
  find_element : locator -> B -> option E;
  (* element.find_elements(by, value) *)
  find_elements_in : E -> locator -> B -> list E;
  (* element.screenshot_as_png *)
  screenshot_as_png : E -> B -> image;
  (* element.screenshot(path): whether the PNG could be written to path
     (selenium returns False, and raises nothing, when it could not) *)
  screenshot_saved : E -> string -> B -> bool;
  (* element.get_attribute(name) *)
  get_attribute : E -> string -> B -> option string;
  (* element.click() *)
  click : E -> B -> B;
  maximize_window : B -> B;
  quit : B -> B
}.

(** What the run did, in order. *)
Inductive event (E : Type) : Type :=
| EvMakedirs (path : string)
| EvCreateDriver
| EvMaximize
| EvGet (url : string)
| EvUntil (timeout : nat) (loc : locator)
| EvSleep (seconds : nat)
| EvFind (loc : locator)
| EvFindAll (parent : E) (loc : locator)
| EvScreenshot (section : E) (path : string)
| EvGetAttribute (el : E) (name : string)
| EvClick (el : E)
| EvQuit.
Arguments EvMakedirs {E} path.
Arguments EvCreateDriver {E}.
Arguments EvMaximize {E}.
Arguments EvGet {E} url.
Arguments EvUntil {E} timeout loc.
Arguments EvSleep {E} seconds.
Arguments EvFind {E} loc.
Arguments EvFindAll {E} parent loc.
Arguments EvScreenshot {E} section path.
Arguments EvGetAttribute {E} el name.
Arguments EvClick {E} el.
Arguments EvQuit {E}.

(** The state a run threads: the browser, the disk, the log, and the two
    local variables of [collect_images]. *)
Record state (B E : Type) : Type := State {
  browser : B;
  files : filesystem;
  log : list (event E);
  all_images : list string;
  global_step : nat
}.
Arguments State {B E}.
Arguments browser {B E}.
Arguments files {B E}.
Arguments log {B E}.
Arguments all_images {B E}.
Arguments global_step {B E}.

(** The screenshots of a log, in the order they were taken. *)
Fixpoint captures {E} (l : list (event E)) : list (E * string) :=
  match l with
  | [] => []
  | EvScreenshot e p :: l' => (e, p) :: captures l'
  | _ :: l' => captures l'
  end.

(** The double quote character, for selectors that contain it. *)
Definition dquote : string := String (Ascii.ascii_of_nat 34) "".

(** Why a pagination loop was left through [break]. *)
Inductive break_reason : Type := NoSections | NextDisabled.

(** The calls on the session, as computations on [state]. *)
Section Calls.
Context {B E : Type} `{!WebDriver B E}.

Definition emit (ev : event E) (s : state B E) : state B E :=
  State (browser s) (files s) (log s ++ [ev]) (all_images s) (global_step s).

Definition on_browser (f : B -> B) (s : state B E) : state B E :=
  State (f (browser s)) (files s) (log s) (all_images s) (global_step s).

(** [os.makedirs(path, exist_ok=True)] where the directory is there
    already: nothing is made and nothing is raised.  The call on any disk
    is [os_makedirs] below. *)
Definition makedirs (path : string) : M (state B E) unit :=
  fun s => (Ok tt, emit (EvMakedirs path) s).

Definition driver_get (url : string) : M (state B E) unit :=
  fun s => (Ok tt, on_browser (get url) (emit (EvGet url) s)).

Definition wait_until (timeout : nat) (loc : locator) : M (state B E) unit :=
  fun s =>
    let s1 := emit (EvUntil timeout loc) s in
    match until_present timeout loc (browser s) with
    | Some b => (Ok tt, on_browser (fun _ => b) s1)
    | None => (Raise TimeoutException, s1)
    end.

Definition sleep (seconds : nat) : M (state B E) unit :=
  fun s => (Ok tt, on_browser (idle seconds) (emit (EvSleep seconds) s)).

Definition driver_find_element (loc : locator) : M (state B E) E :=
  fun s =>
    let s1 := emit (EvFind loc) s in
    match find_element loc (browser s) with
    | Some e => (Ok e, s1)
    | None => (Raise NoSuchElementException, s1)
    end.

Definition element_find_elements (parent : E) (loc : locator)
  : M (state B E) (list E) :=
  fun s => (Ok (find_elements_in parent loc (browser s)),
            emit (EvFindAll parent loc) s).

(** [element.screenshot(path)]: the PNG of the element is written to
    [path], when it can be; the caller drops the answer. *)
Definition element_screenshot (el : E) (path : string) : M (state B E) unit :=
  fun s =>
    (Ok tt,
     State (browser s)
           (if screenshot_saved el path (browser s)
            then <[path := FImage (screenshot_as_png el (browser s))]> (files s)
            else files s)
           (log s ++ [EvScreenshot el path])
           (all_images s) (global_step s)).

Definition element_get_attribute (el : E) (name : string)
  : M (state B E) (option string) :=
  fun s => (Ok (get_attribute el name (browser s)),
            emit (EvGetAttribute el name) s).

Definition element_click (el : E) : M (state B E) unit :=
  fun s => (Ok tt, on_browser (click el) (emit (EvClick el) s)).

(** [driver.maximize_window()] where the browser obeys.  The call with
    its failure is [window_maximize] below. *)
Definition driver_maximize_window : M (state B E) unit :=
  fun s => (Ok tt, on_browser maximize_window (emit EvMaximize s)).

Definition driver_quit : M (state B E) unit :=
  fun s => (Ok tt, on_browser quit (emit EvQuit s)).

(** [create_driver()] where Chrome starts: the session is the [browser]
    of the state, and the call marks the point from which the run owns
    it.  What the two entry points do to get there, and how that fails,
    is [MainRun.create_driver] and [SrcMainRun.create_driver] below. *)
Definition create_driver : M (state B E) unit :=
  fun s => (Ok tt, emit EvCreateDriver s).

(** A computation on the disk alone, run inside a browser run. *)
Definition on_files {A} (m : M filesystem A) : M (state B E) A :=
  fun s =>
    let '(r, fs) := m (files s) in
    (r, State (browser s) fs (log s) (all_images s) (global_step s)).

End Calls.

(** ** main.py: the original entry point

    The functions of the file but [create_driver] and [main], which are
    in [MainRun] below, with the start-up calls. *)

Module Main.

Definition LINKS : list (string * string) :=
  [ ("doc_1", "https://example.com/first");
    ("doc_2", "https://example.com/second") ].

Definition BASE_DIR : string := "output".
Definition IMAGES_DIR : string := path_join BASE_DIR "images".
Definition WAIT : nat := 10.

Definition content_locator : locator := (CSS_SELECTOR, "div.content").
Definition sections_locator : locator :=
  (CSS_SELECTOR, "[id^=" +:+ dquote +:+ "pageSection" +:+ dquote +:+ "]").
Definition next_locator : locator := (ID, "page_next").

(** [[Image.open(img).convert("RGB") for img in images]]: the images
    are opened in order, and the first failure ends the comprehension. *)
Fixpoint open_all (images : list string) (fs : filesystem) : outcome (list image) :=
  match images with
  | [] => Ok []
  | img :: rest =>
      match image_open img fs with
      | Ok im =>
          match open_all rest fs with
          | Ok ims => Ok (convert_rgb im :: ims)
          | Raise e => Raise e
          | OutOfFuel => OutOfFuel
          end
      | Raise e => Raise e
      | OutOfFuel => OutOfFuel
      end
  end.

Definition images_to_pdf {host : Host} (images : list string) (pdf_path : string)
  : M filesystem unit :=
  fun fs =>
    match open_all images fs with
    | Ok pil_images =>
        match pil_images with
        | [] => (Raise IndexError, fs)                    (* pil_images[0] *)
        | first :: rest => image_save (first :: rest) pdf_path fs
        end
    | Raise e => (Raise e, fs)
    | OutOfFuel => (OutOfFuel, fs)
    end.

Section WithDriver.
Context {B E : Type} `{!WebDriver B E} {host : Host}.
Local Open Scope py_scope.

(** The body of [for section in sections] (the [print] left out). *)
Definition capture (section : E) : M (state B E) unit :=
  fun s =>
    let img_path := path_join IMAGES_DIR (format_04 (global_step s) +:+ ".png") in
    (let* _ := element_screenshot section img_path in
     let* _ := (fun s1 => (Ok tt, State (browser s1) (files s1) (log s1)
                                   (all_images s1 ++ [img_path])
                                   (global_step s1))) in
     let* _ := element_get_attribute section "id" in
     fun s2 => (Ok tt, State (browser s2) (files s2) (log s2)
                        (all_images s2) (global_step s2 + 1))) s.

Fixpoint for_sections (sections : list E) : M (state B E) unit :=
  match sections with
  | [] => ret tt
  | section :: rest => capture section ;; for_sections rest
  end.

(** The [while True] loop of one document; [fuel] bounds its
    iterations. *)
Fixpoint pagination_loop (fuel : nat) : M (state B E) break_reason :=
  match fuel with
  | 0 => spin
  | S fuel' =>
      let* content := driver_find_element content_locator in
      let* sections := element_find_elements content sections_locator in
      match sections with
      | [] => ret NoSections
      | _ :: _ =>
          for_sections sections ;;
          let* next_btn := driver_find_element next_locator in
          let* classes := element_get_attribute next_btn "class" in
          match classes with
          | None => raise TypeError
          | Some classes =>
              if str_in "disabled" classes then ret NextDisabled
              else
                element_click next_btn ;;
                wait_until WAIT content_locator ;;
                sleep 1 ;;
                pagination_loop fuel'
          end
      end
  end.

(** The body of [for name, url in LINKS.items()]. *)
Definition process_document (url : string) (fuel : nat)
  : M (state B E) break_reason :=
  driver_get url ;;
  wait_until WAIT content_locator ;;
  sleep 1 ;;
  pagination_loop fuel.

Fixpoint for_links (links : list (string * string)) (fuel : nat)
  : M (state B E) unit :=
  match links with
  | [] => ret tt
  | (name, url) :: rest => process_document url fuel ;; for_links rest fuel
  end.

Definition init_locals (s : state B E) : state B E :=
  State (browser s) (files s) (log s) [] 1.

(** [collect_images(driver)], for the mapping [links], on a disk that has
    the images directory.  On any disk it is [MainRun.collect_images]
    below. *)
(** [collect_images(driver)], for the mapping [links], on a disk that has
    the images directory.  On any disk it is [SrcMainRun.collect_images]
    below. *)
Definition collect_images (links : list (string * string)) (fuel : nat)
  : M (state B E) (list string) :=
  makedirs IMAGES_DIR ;;
  (fun s => (Ok tt, init_locals s)) ;;
  for_links links fuel ;;
  fun s => (Ok (all_images s), s).

End WithDriver.

End Main.

(** ** src/main.py: the packaged entry point *)

Module SrcMain.

Definition BASE_DIR : string := "output".
Definition IMAGES_DIR : string := path_join BASE_DIR "images".
Definition WAIT : nat := 10.

Definition content_locator : locator := (CSS_SELECTOR, "div.content").
Definition sections_locator : locator :=
  (CSS_SELECTOR, "[id^=" +:+ dquote +:+ "pageSection" +:+ dquote +:+ "]").
Definition next_locator : locator := (ID, "page_next").

(** [[Image.open(img).convert("RGB") for img in images]]: the images
    are opened in order, and the first failure ends the comprehension. *)
Fixpoint open_all (images : list string) (fs : filesystem) : outcome (list image) :=
  match images with
  | [] => Ok []
  | img :: rest =>
      match image_open img fs with
      | Ok im =>
          match open_all rest fs with
          | Ok ims => Ok (convert_rgb im :: ims)
          | Raise e => Raise e
          | OutOfFuel => OutOfFuel
          end
      | Raise e => Raise e
      | OutOfFuel => OutOfFuel
      end
  end.

Definition images_to_pdf {host : Host} (images : list string) (pdf_path : string)
  : M filesystem unit :=
  fun fs =>
    match open_all images fs with
    | Ok pil_images =>
        match pil_images with
        | [] => (Raise IndexError, fs)                    (* pil_images[0] *)
        | first :: rest => image_save (first :: rest) pdf_path fs
        end
    | Raise e => (Raise e, fs)
    | OutOfFuel => (OutOfFuel, fs)
    end.

(** [load_config(config_name)]: what [yaml.safe_load] returns is the
    document the file holds (a plain sentence is a document too, a
    string); an image or a PDF is binary data that cannot be read as
    text. *)
Definition load_config (config_name : string) : M filesystem yaml :=
  fun fs =>
    let config_path := path_join "configs" (config_name +:+ ".yaml") in
    match fs !! config_path with
    | None => (Raise FileNotFoundError, fs)               (* os.path.exists *)
    | Some (FYaml config) =>
        match config with
        | YMap entries => (Ok (dict_get "links" entries (YMap [])), fs)
        | _ => (Raise AttributeError, fs)                 (* config.get *)
        end
    | Some FDir => (Raise IsADirectoryError, fs)          (* open *)
    | Some FLocked => (Raise PermissionError, fs)         (* open *)
    | Some FText => (Raise YAMLError, fs)                 (* yaml.safe_load *)
    | Some (FImage _ | FPdf _ | FTruncated) =>
        (Raise UnicodeDecodeError, fs)                    (* f.read *)
    end.

(** [LINKS: Dict[str, str]]: the items of a mapping from names to URLs. *)
Fixpoint str_items (entries : list (string * yaml)) : option (list (string * string)) :=
  match entries with
  | [] => Some []
  | (name, YStr url) :: rest =>
      match str_items rest with
      | Some items => Some ((name, url) :: items)
      | None => None
      end
  | _ :: _ => None
  end.

Definition links_items (links : yaml) : option (list (string * string)) :=
  match links with
  | YMap entries => str_items entries
  | _ => None
  end.

(** The items of a mapping that come before the first value that is no
    string. *)
Fixpoint leading_items (entries : list (string * yaml)) : list (string * string) :=
  match entries with
  | (name, YStr url) :: rest => (name, url) :: leading_items rest
  | _ => []
  end.

Section WithDriver.
Context {B E : Type} `{!WebDriver B E} {host : Host}.
Local Open Scope py_scope.

(** The body of [for section in sections] (the [print] left out). *)
Definition capture (section : E) : M (state B E) unit :=
  fun s =>
    let img_path := path_join IMAGES_DIR (format_04 (global_step s) +:+ ".png") in
    (let* _ := element_screenshot section img_path in
     let* _ := (fun s1 => (Ok tt, State (browser s1) (files s1) (log s1)
                                   (all_images s1 ++ [img_path])
                                   (global_step s1))) in
     let* _ := element_get_attribute section "id" in
     fun s2 => (Ok tt, State (browser s2) (files s2) (log s2)
                        (all_images s2) (global_step s2 + 1))) s.

Fixpoint for_sections (sections : list E) : M (state B E) unit :=
  match sections with
  | [] => ret tt
  | section :: rest => capture section ;; for_sections rest
  end.

(** The [while True] loop of one document; [fuel] bounds its
    iterations. *)
Fixpoint pagination_loop (fuel : nat) : M (state B E) break_reason :=
  match fuel with
  | 0 => spin
  | S fuel' =>
      let* content := driver_find_element content_locator in
      let* sections := element_find_elements content sections_locator in
      match sections with
      | [] => ret NoSections
      | _ :: _ =>
          for_sections sections ;;
          let* next_btn := driver_find_element next_locator in
          let* classes := element_get_attribute next_btn "class" in
          match classes with
          | None => raise TypeError
          | Some classes =>
              if str_in "disabled" classes then ret NextDisabled
              else
                element_click next_btn ;;
                wait_until WAIT content_locator ;;
                sleep 1 ;;
                pagination_loop fuel'
          end
      end
  end.

(** The body of [for name, url in LINKS.items()]. *)
Definition process_document (url : string) (fuel : nat)
  : M (state B E) break_reason :=
  driver_get url ;;
  wait_until WAIT content_locator ;;
  sleep 1 ;;
  pagination_loop fuel.

Fixpoint for_links (links : list (string * string)) (fuel : nat)
  : M (state B E) unit :=
  match links with
  | [] => ret tt
  | (name, url) :: rest => process_document url fuel ;; for_links rest fuel
  end.

Definition init_locals (s : state B E) : state B E :=
  State (browser s) (files s) (log s) [] 1.

Definition collect_images (links : list (string * string)) (fuel : nat)
  : M (state B E) (list string) :=
  makedirs IMAGES_DIR ;;
  (fun s => (Ok tt, init_locals s)) ;;
  for_links links fuel ;;
  fun s => (Ok (all_images s), s).

(** [collect_images] on a [links] mapping one of whose URLs is no
    string: the documents before it are processed, then [driver.get] is
    called with something that is no string, which the driver refuses
    (invalid argument). *)
Definition collect_images_upto (entries : list (string * yaml)) (fuel : nat)
  : M (state B E) (list string) :=
  makedirs IMAGES_DIR ;;
  (fun s => (Ok tt, init_locals s)) ;;
  for_links (leading_items entries) fuel ;;
  raise WebDriverException.

(** The body of the [try] statement of [main].  [LINKS] is the global
    that [main] sets from the configuration; a [links] value that is no
    mapping from strings to strings is outside its declared type, and
    the run fails on it inside the [try]: on [LINKS.items()] when the
    value is no mapping, on [driver.get(url)] when a URL is no string. *)
Definition try_block (LINKS : yaml) (pdf_filename : string) (fuel : nat)
  : M (state B E) unit :=
  match links_items LINKS with
  | Some items =>
      let* images := collect_images items fuel in
      let pdf_path := path_join BASE_DIR pdf_filename in
      on_files (images_to_pdf images pdf_path)
  | None =>
      match LINKS with
      | YMap entries => collect_images_upto entries fuel ;; ret tt
      | _ => makedirs IMAGES_DIR ;; raise AttributeError
      end
  end.

(** [main()] for a run in which start-up succeeds on directories that
    are there already: nothing is made on the disk, Chrome starts, the
    window obeys.  The function with start-up in full is
    [SrcMainRun.main] below. *)
Definition main (config pdf_filename : string) (fuel : nat)
  : M (state B E) unit :=
  let* LINKS := on_files (load_config config) in
  makedirs BASE_DIR ;;
  create_driver ;;
  driver_maximize_window ;;
  try_finally (try_block LINKS pdf_filename fuel) driver_quit.

End WithDriver.

End SrcMain.

(** ** A paged site: a browser to run the scripts against

    A document is a list of pages; a page has at most one content
    container, whose descendants are listed in DOM order, and at most one
    next-page control.  Clicking the control shows the following page. *)

Module Site.

Record element : Type := Element {
  el_id : option string;
  el_class : option string;
  el_png : image
}.

Record page : Type := Page {
  content : option (list element);
  next_control : option element
}.

Record window : Type := Window {
  site : list (string * list page);     (* URL to document *)
  current : list page;                  (* the page shown, and those after it *)
  maximized : bool;
  closed : bool
}.

Inductive handle : Type :=
| Container (descendants : list element)
| Node (e : element).

Definition by_eqb (a b : By) : bool :=
  match a, b with
  | CSS_SELECTOR, CSS_SELECTOR | ID, ID => true
  | _, _ => false
  end.

Definition locator_eqb (a b : locator) : bool :=
  (by_eqb (fst a) (fst b) && String.eqb (snd a) (snd b))%bool.

(** The elements [[id^="pageSection"]] selects. *)
Definition is_section (e : element) : bool :=
  match el_id e with
  | Some i => String.prefix "pageSection" i
  | None => false
  end.

Definition page_sections (p : page) : list element :=
  match content p with
  | Some descendants => filter (fun e => is_section e = true) descendants
  | None => []
  end.

Definition shown (b : window) : option page := head (current b).

Definition site_find_element (loc : locator) (b : window) : option handle :=
  if locator_eqb loc Main.content_locator then
    Container <$> (shown b ≫= content)
  else if locator_eqb loc Main.next_locator then
    Node <$> (shown b ≫= next_control)
  else None.

Definition site_find_elements_in (parent : handle) (loc : locator) (b : window)
  : list handle :=
  match parent with
  | Container descendants =>
      if locator_eqb loc Main.sections_locator
      then Node <$> filter (fun e => is_section e = true) descendants
      else []
  | Node _ => []
  end.

Definition blank : image := Image RGBA (0, 0) [].

#[global] Instance site_driver : WebDriver window handle := {
  get url b := Window (site b) (dict_get url (site b) []) (maximized b) (closed b);
  until_present _ loc b :=
    match site_find_element loc b with Some _ => Some b | None => None end;
  idle _ b := b;
  find_element := site_find_element;
  find_elements_in := site_find_elements_in;
  screenshot_as_png h _ :=
    match h with Node e => el_png e | Container _ => blank end;
  screenshot_saved _ _ _ := true;
  get_attribute h name _ :=
    match h with
    | Node e =>
        if String.eqb name "class" then el_class e
        else if String.eqb name "id" then el_id e
        else None
    | Container _ => if String.eqb name "class" then Some "content" else None
    end;
  click h b :=
    match h with
    | Node _ => Window (site b) (tail (current b)) (maximized b) (closed b)
    | Container _ => b
    end;
  maximize_window b := Window (site b) (current b) true (closed b);
  quit b := Window (site b) [] (maximized b) true
}.

(** Whether the class of the next-page control of [p] contains
    [disabled]; [None] when there is no control or it has no class. *)
Definition next_disabled (p : page) : option bool :=
  e ← next_control p; c ← el_class e; Some (str_in "disabled" c).

(** A document the pagination loop walks to its end: every page has a
    content container and sections, the next-page control is enabled on
    every page but the last, and the last page either has the control
    disabled or is an empty page after the last sections. *)
Fixpoint well_paged (pages : list page) : bool :=
  match pages with
  | [] => false
  | p :: rest =>
      match content p with
      | None => false
      | Some _ =>
          match page_sections p with
          | [] => match rest with [] => true | _ => false end
          | _ :: _ =>
              match next_disabled p with
              | Some true => match rest with [] => true | _ => false end
              | Some false => well_paged rest
              | None => false
              end
          end
      end
  end.

(** All sections of a document, page by page. *)
Definition document_sections (pages : list page) : list element :=
  concat (page_sections <$> pages).

(** All sections of the documents of [links], document by document. *)
Definition run_sections (site : list (string * list page))
  (links : list (string * string)) : list element :=
  concat ((fun l => document_sections (dict_get (snd l) site [])) <$> links).

Definition start (site : list (string * list page)) (fs : filesystem)
  : state window handle :=
  State (Window site [] false false) fs [] [] 0.

End Site.

(** ** Names used by the statements *)

(** The path the capture with sequence number [n] is written to. *)
Definition img_path (n : nat) : string :=
  path_join Main.IMAGES_DIR (format_04 n +:+ ".png").

(** [m] leaves [P] standing, whatever its outcome. *)
Definition keeps {S A} (P : S -> Prop) (m : M S A) : Prop :=
  forall s, P s -> P (snd (m s)).

(** The numbering of the captures made since the log read [l0]: the list
    of paths is the list of captures, the paths are numbered from 1 without
    a gap, and the counter is one ahead of the last number used. *)
Definition numbered {B E} (l0 : list (event E)) (s : state B E) : Prop :=
  exists evs,
    log s = l0 ++ evs /\
    all_images s = snd <$> captures evs /\
    all_images s = img_path <$> seq 1 (length (all_images s)) /\
    global_step s = S (length (all_images s)).

(** The log entries of capturing [sections] with the counter at [n]. *)
Fixpoint capture_events {E} (n : nat) (sections : list E) : list (event E) :=
  match sections with
  | [] => []
  | section :: rest =>
      EvScreenshot section (img_path n)
        :: EvGetAttribute section "id"
        :: capture_events (S n) rest
  end.

(** The disk after capturing [sections] with the counter at [n]. *)
Fixpoint capture_files {B E} `{!WebDriver B E} (n : nat) (sections : list E)
  (b : B) (fs : filesystem) : filesystem :=
  match sections with
  | [] => fs
  | section :: rest =>
      capture_files (S n) rest b
        (if screenshot_saved section (img_path n) b
         then <[img_path n := FImage (screenshot_as_png section b)]> fs
         else fs)
  end.

(** The state after capturing [sections] from [s]. *)
Definition captured {B E} `{!WebDriver B E} (sections : list E) (s : state B E)
  : state B E :=
  State (browser s)
        (capture_files (global_step s) sections (browser s) (files s))
        (log s ++ capture_events (global_step s) sections)
        (all_images s ++ (img_path <$> seq (global_step s) (length sections)))
        (global_step s + length sections).

(** The state in which the next-page control is looked up: the sections
    of the page have been found and captured. *)
Definition page_captured {B E} `{!WebDriver B E} (content : E) (sections : list E)
  (s : state B E) : state B E :=
  captured sections
    (emit (EvFindAll content Main.sections_locator)
          (emit (EvFind Main.content_locator) s)).

(** The state after a wait for the content container that found the
    browser in [b], and the one-second pause that follows it. *)
Definition settled {B E} `{!WebDriver B E} (b : B) (s : state B E) : state B E :=
  on_browser (idle 1)
    (emit (EvSleep 1)
       (on_browser (fun _ => b)
          (emit (EvUntil Main.WAIT Main.content_locator) s))).

(** The state in which the class of the next-page control has been read. *)
Definition next_checked {B E} `{!WebDriver B E} (next_btn : E) (s : state B E)
  : state B E :=
  emit (EvGetAttribute next_btn "class") (emit (EvFind Main.next_locator) s).

(** The state after a click on the next-page control. *)
Definition clicked {B E} `{!WebDriver B E} (next_btn : E) (s : state B E)
  : state B E :=
  on_browser (click next_btn) (emit (EvClick next_btn) s).

(** The state after [driver.get(url)]. *)
Definition loaded {B E} `{!WebDriver B E} (url : string) (s : state B E)
  : state B E :=
  on_browser (get url) (emit (EvGet url) s).

(** What the page shown by [b] looks like when a pagination loop has been
    left there through [break]. *)
Definition stopped_at {B E} `{!WebDriver B E} (r : break_reason) (b : B) : Prop :=
  exists content,
    find_element Main.content_locator b = Some content /\
    match r with
    | NoSections =>
        find_elements_in content Main.sections_locator b = []
    | NextDisabled =>
        find_elements_in content Main.sections_locator b <> [] /\
        exists next_btn classes,
          find_element Main.next_locator b = Some next_btn /\
          get_attribute next_btn "class" b = Some classes /\
          str_in "disabled" classes = true
    end.

(** On a paged site: [s'] is [s] after capturing exactly [sections], in
    that order, under consecutive numbers, with the site left as it was. *)
Definition extends (s s' : state Site.window Site.handle)
  (sections : list Site.element) : Prop :=
  Site.site (browser s') = Site.site (browser s) /\
  exists evs,
    log s' = log s ++ evs /\
    captures evs
    = zip (Site.Node <$> sections)
          (img_path <$> seq (global_step s) (length sections)) /\
    all_images s'
    = all_images s ++ (img_path <$> seq (global_step s) (length sections)) /\
    global_step s' = global_step s + length sections.

(** The documents of [links] can be walked to their end on [site] with
    [fuel] turns of the pagination loop each. *)
Definition walkable (site : list (string * list Site.page))
  (links : list (string * string)) (fuel : nat) : Prop :=
  Forall (fun l => Site.well_paged (dict_get (snd l) site []) = true /\
                   length (dict_get (snd l) site []) <= fuel) links.

(** [path] holds an image Pillow can open. *)
Definition readable (fs : filesystem) (path : string) : bool :=
  match fs !! path with
  | Some (FImage _) => true
  | _ => false
  end.

(** The events that acquire and release the session. *)
Definition is_session {E} (ev : event E) : bool :=
  match ev with
  | EvCreateDriver | EvQuit => true
  | _ => false
  end.

(** Whatever its outcome, [m] only appends to the log, and only events
    that satisfy [P]. *)
Definition logs {B E A} (P : event E -> Prop) (m : M (state B E) A) : Prop :=
  forall s, exists evs, log (snd (m s)) = log s ++ evs /\ Forall P evs.




(** The state in which [main] enters its [try] block. *)
Definition begun {B E} `{!WebDriver B E} (s : state B E) : state B E :=
  on_browser maximize_window
    (emit EvMaximize (emit EvCreateDriver (emit (EvMakedirs "output") s))).

(** The state [main] leaves when its [try] block has ended in [s]. *)
Definition released {B E} `{!WebDriver B E} (s : state B E) : state B E :=
  on_browser quit (emit EvQuit s).

(** ** A small site and a small disk to run the scripts on *)

Module Demo.
Import Site.

Definition pixel : image := Image RGBA (1, 1) [[10; 20; 30; 255]%N].

Definition sec (n : string) : element :=
  Element (Some ("pageSection" +:+ n)) None pixel.
Definition toolbar : element := Element (Some "toolbar") (Some "bar") blank.
Definition next_enabled : element := Element (Some "page_next") (Some "btn") blank.
Definition next_off : element :=
  Element (Some "page_next") (Some "btn disabled") blank.

Definition first_page : page :=
  Page (Some [sec "1"; toolbar; sec "2"; sec "3"]) (Some next_enabled).
Definition second_page : page :=
  Page (Some [sec "4"; sec "5"]) (Some next_off).
Definition only_page : page := Page (Some [sec "1"]) (Some next_off).
Definition empty_page : page := Page (Some [toolbar]) (Some next_enabled).

(** [doc_1] has two pages of three and two sections, [doc_2] one page of
    one section; a third document shows a page without sections. *)
Definition pages_of : list (string * list page) :=
  [ ("https://example.com/first", [first_page; second_page]);
    ("https://example.com/second", [only_page]);
    ("https://example.com/empty", [empty_page]) ].

Definition start : state window handle := Site.start pages_of ∅.

Definition empty_then_second : list (string * string) :=
  [ ("doc_0", "https://example.com/empty");
    ("doc_2", "https://example.com/second") ].

(** The state in which the pagination loop of a document starts. *)
Definition opened (url : string) : state window handle :=
  settled (get url (browser start)) (loaded url start).

Definition grey : image := Image L (2, 1) [[7]; [200]]%N.
Definition translucent : image := Image RGBA (1, 1) [[1; 2; 3; 128]]%N.

Definition disk : filesystem :=
  {[ "output/images/0001.png" := FImage grey;
     "output/images/0002.png" := FImage translucent;
     "notes.txt" := FText;
     "output/images/0009.png" := FTruncated;
     "configs/default.yaml" :=
       FYaml (YMap [ ("title", YStr "books");
                     ("links", YMap [ ("doc_1", YStr "https://example.com/first");
                                      ("doc_2", YStr "https://example.com/second") ]) ]);
     "configs/bare.yaml" := FYaml (YMap [ ("other_key", YStr "value") ]) ]}.

End Demo.

(** ** Further names: the disk, the documents loaded, the driver binary *)

(** The URLs a log shows as loaded, in order. *)
Fixpoint gets {E} (l : list (event E)) : list string :=
  match l with
  | [] => []
  | EvGet url :: l' => url :: gets l'
  | _ :: l' => gets l'
  end.



(** [s[n:]] on a string. *)
Fixpoint drop_str (n : nat) (s : string) : string :=
  match n, s with
  | 0, _ => s
  | S n', String _ s' => drop_str n' s'
  | S _, "" => ""
  end.

(** [s.endswith(suffix)]. *)
Definition endswith (s suffix : string) : bool :=
  (Nat.leb (String.length suffix) (String.length s) &&
   String.eqb (drop_str (String.length s - String.length suffix) s) suffix)%bool.

(** [s.replace(old, new)] for a non-empty [old]: the occurrences of [old]
    are taken from left to right without overlap; [skip] counts the
    characters of an occurrence that are still to be passed over. *)
Fixpoint replace_from (old new : string) (skip : nat) (s : string) : string :=
  match s with
  | "" => ""
  | String c s' =>
      match skip with
      | S skip' => replace_from old new skip' s'
      | 0 =>
          if String.prefix old s
          then new +:+ replace_from old new (String.length old - 1) s'
          else String c (replace_from old new 0 s')
      end
  end.

(** [s.replace("", new)]: [new] before every character and at the end. *)
Fixpoint interleave (new s : string) : string :=
  match s with
  | "" => new
  | String c s' => new +:+ String c (interleave new s')
  end.

(** [s.replace(old, new)]. *)
Definition str_replace (old new s : string) : string :=
  match old with
  | "" => interleave new s
  | _ => replace_from old new 0 s
  end.

(** The path computation of [create_driver] in [src/main.py]: webdriver
    manager may hand out the notices file that lies beside the driver. *)
Module SrcDriver.

Definition notices : string := "THIRD_PARTY_NOTICES.chromedriver".

Definition driver_binary (driver_path : string) : string :=
  if endswith driver_path notices
  then str_replace notices "chromedriver" driver_path
  else driver_path.

End SrcDriver.

(** What a screenshot of a handle of the paged site shows. *)
Definition site_png (h : Site.handle) : image :=
  match h with
  | Site.Node e => Site.el_png e
  | Site.Container _ => Site.blank
  end.

(** The disk after the captures [caps] of a run on the paged site. *)
Fixpoint write_captures (caps : list (Site.handle * string)) (fs : filesystem)
  : filesystem :=
  match caps with
  | [] => fs
  | (h, path) :: rest => write_captures rest (<[path := FImage (site_png h)]> fs)
  end.

(** On the paged site: since the log read [base] and the disk [fs0], the
    disk has changed by the captures logged, and by nothing else. *)
Definition site_stored (base : list (event Site.handle)) (fs0 : filesystem)
  (s : state Site.window Site.handle) : Prop :=
  exists evs, log s = base ++ evs /\ files s = write_captures (captures evs) fs0.

(** ** Start-up: the directories, the driver and the window

    [os.makedirs] and the calls that come before the [try] statement of
    [main], as the operating system, the driver manager and Chrome decide
    them.  The definitions above take these calls where they succeed on
    directories that are there already; the ones below are the calls in
    full. *)

Class Startup (B : Type) : Type := {
  (* os.mkdir(dir) where there is nothing at dir: the exception it
     raises, if any (no right to make the directory, a disk that cannot
     be written, ...) *)
  mkdir_raises : string -> filesystem -> option exn;
  (* ChromeDriverManager().install(): the path it returns, or the
     exception it raises (no network, ...) *)
  install : exn + string;
  (* webdriver.Chrome(service=Service(driver_path), options=options), with
     the arguments added to the options: the exception it raises when no
     session can be started *)
  chrome_raises : string -> list string -> option exn;
  (* driver.maximize_window(): the exception it raises when the browser
     refuses the command *)
  maximize_raises : B -> option exn
}.

(** The directories [os.makedirs(path)] sees to, outermost first: [path]
    cut before each slash that ends a component, and [path] itself. *)
Definition dir_here (seen : string) : list string :=
  if (String.eqb seen "" || ends_with_slash seen)%bool then [] else [seen].

Fixpoint dirs_from (seen rest : string) : list string :=
  match rest with
  | "" => dir_here seen
  | String c rest' =>
      (if Ascii.eqb c "/" then dir_here seen else [])
      ++ dirs_from (seen +:+ String c "") rest'
  end.

Definition dirs_of (path : string) : list string := dirs_from "" path.

(** [os.makedirs(path, exist_ok=True)] over the directories on the way
    to [path], from the outermost: a directory that is there is passed
    over, one that is missing is made, and the first failure ends the
    call, with the directories made so far left on the disk.  [exist_ok]
    excuses a directory and nothing else: a file at the path is a
    [FileExistsError], a file on the way to it a [NotADirectoryError]. *)
Fixpoint make_each {B} {startup : Startup B} (dirs : list string)
  (fs : filesystem) : option exn * filesystem :=
  match dirs with
  | [] => (None, fs)
  | dir :: rest =>
      match fs !! dir with
      | Some FDir => make_each rest fs
      | Some _ =>
          (Some (match rest with
                 | [] => FileExistsError
                 | _ :: _ => NotADirectoryError
                 end), fs)
      | None =>
          match mkdir_raises dir fs with
          | Some e => (Some e, fs)
          | None => make_each rest (<[dir := FDir]> fs)
          end
      end
  end.

(** The exception [os.makedirs(path, exist_ok=True)] raises on a disk, if
    any. *)
Definition makedirs_raises {B} {startup : Startup B} (path : string)
  (fs : filesystem) : option exn :=
  fst (make_each (dirs_of path) fs).

(** The disk [os.makedirs(path, exist_ok=True)] leaves, whether it
    returns or raises. *)
Definition makedirs_leaves {B} {startup : Startup B} (path : string)
  (fs : filesystem) : filesystem :=
  snd (make_each (dirs_of path) fs).

Definition make_dir (fs : filesystem) (dir : string) : filesystem :=
  match fs !! dir with
  | None => <[dir := FDir]> fs
  | Some _ => fs
  end.

(** The disk after a successful [os.makedirs(path, exist_ok=True)]: every
    directory on the way that was missing is there. *)
Definition make_dirs (path : string) (fs : filesystem) : filesystem :=
  foldl make_dir fs (dirs_of path).

Definition with_files {B E} (f : filesystem -> filesystem) (s : state B E)
  : state B E :=
  State (browser s) (f (files s)) (log s) (all_images s) (global_step s).

Section StartupCalls.
Context {B E : Type} `{!WebDriver B E} {startup : Startup B}.

(** [os.makedirs(path, exist_ok=True)]. *)
Definition os_makedirs (path : string) : M (state B E) unit :=
  fun s =>
    (match makedirs_raises path (files s) with
     | Some e => Raise e
     | None => Ok tt
     end,
     with_files (makedirs_leaves path) (emit (EvMakedirs path) s)).

(** [ChromeDriverManager().install()]. *)
Definition driver_manager_install : M (state B E) string :=
  fun s =>
    match install with
    | inl e => (Raise e, s)
    | inr driver_path => (Ok driver_path, s)
    end.

(** [webdriver.Chrome(service=Service(driver_path), options=options)]:
    from its return on, there is a session to release. *)
Definition webdriver_chrome (driver_path : string) (arguments : list string)
  : M (state B E) unit :=
  fun s =>
    match chrome_raises driver_path arguments with
    | Some e => (Raise e, s)
    | None => (Ok tt, emit EvCreateDriver s)
    end.

(** [driver.maximize_window()]. *)
Definition window_maximize : M (state B E) unit :=
  fun s =>
    match maximize_raises (browser s) with
    | Some e => (Raise e, emit EvMaximize s)
    | None => (Ok tt, on_browser maximize_window (emit EvMaximize s))
    end.

End StartupCalls.

(** [main.py], start-up included. *)
Module MainRun.

Definition PROFILE_PATH (username : string) : string :=
  "/Users/" +:+ username +:+ "/Library/Application Support/Google/Chrome".

(** The arguments [create_driver] adds to the options. *)
Definition arguments (username profile_name : string) : list string :=
  [ "--user-data-dir=" +:+ PROFILE_PATH username;
    "--profile-directory=" +:+ profile_name ].

Section WithDriver.
Context {B E : Type} `{!WebDriver B E} {host : Host} {startup : Startup B}.
Local Open Scope py_scope.

Definition create_driver (username profile_name : string) : M (state B E) unit :=
  let* driver_path := driver_manager_install in
  webdriver_chrome driver_path (arguments username profile_name).

Definition collect_images (links : list (string * string)) (fuel : nat)
  : M (state B E) (list string) :=
  os_makedirs Main.IMAGES_DIR ;;
  (fun s => (Ok tt, Main.init_locals s)) ;;
  Main.for_links links fuel ;;
  fun s => (Ok (all_images s), s).

Definition try_block (pdf_filename : string) (fuel : nat) : M (state B E) unit :=
  let* images := collect_images Main.LINKS fuel in
  let pdf_path := path_join Main.BASE_DIR pdf_filename in
  on_files (Main.images_to_pdf images pdf_path).

(** [main()], for the arguments [--username], [--profile-name] and
    [--pdf-filename]. *)
Definition main (username profile_name pdf_filename : string) (fuel : nat)
  : M (state B E) unit :=
  os_makedirs Main.BASE_DIR ;;
  create_driver username profile_name ;;
  window_maximize ;;
  try_finally (try_block pdf_filename fuel) driver_quit.

End WithDriver.

End MainRun.

(** [src/main.py], start-up included. *)
Module SrcMainRun.

Definition PROFILE_PATH (username : string) : string :=
  "/Users/" +:+ username +:+ "/Library/Application Support/Google/Chrome".

Definition arguments (username profile_name : string) : list string :=
  [ "--user-data-dir=" +:+ PROFILE_PATH username;
    "--profile-directory=" +:+ profile_name ].

Section WithDriver.
Context {B E : Type} `{!WebDriver B E} {host : Host} {startup : Startup B}.
Local Open Scope py_scope.

Definition create_driver (username profile_name : string) : M (state B E) unit :=
  let* driver_path := driver_manager_install in
  let driver_path := SrcDriver.driver_binary driver_path in
  webdriver_chrome driver_path (arguments username profile_name).

Definition collect_images (links : list (string * string)) (fuel : nat)
  : M (state B E) (list string) :=
  os_makedirs SrcMain.IMAGES_DIR ;;
  (fun s => (Ok tt, SrcMain.init_locals s)) ;;
  SrcMain.for_links links fuel ;;
  fun s => (Ok (all_images s), s).

Definition collect_images_upto (entries : list (string * yaml)) (fuel : nat)
  : M (state B E) (list string) :=
  os_makedirs SrcMain.IMAGES_DIR ;;
  (fun s => (Ok tt, SrcMain.init_locals s)) ;;
  SrcMain.for_links (SrcMain.leading_items entries) fuel ;;
  raise WebDriverException.

Definition try_block (LINKS : yaml) (pdf_filename : string) (fuel : nat)
  : M (state B E) unit :=
  match SrcMain.links_items LINKS with
  | Some items =>
      let* images := collect_images items fuel in
      let pdf_path := path_join SrcMain.BASE_DIR pdf_filename in
      on_files (SrcMain.images_to_pdf images pdf_path)
  | None =>
      match LINKS with
      | YMap entries => collect_images_upto entries fuel ;; ret tt
      | _ => os_makedirs SrcMain.IMAGES_DIR ;; raise AttributeError
      end
  end.

(** [main()], for the arguments [--username], [--profile-name],
    [--config] and [--pdf-filename]. *)
Definition main (username profile_name config pdf_filename : string) (fuel : nat)
  : M (state B E) unit :=
  let* LINKS := on_files (SrcMain.load_config config) in
  os_makedirs SrcMain.BASE_DIR ;;
  create_driver username profile_name ;;
  window_maximize ;;
  try_finally (try_block LINKS pdf_filename fuel) driver_quit.

End WithDriver.

End SrcMainRun.


(** The state in which [main] enters its [try] block once start-up has
    succeeded: the output directory is there, the session exists, the
    window is maximized. *)
Definition started {B E} `{!WebDriver B E} (s : state B E) : state B E :=
  begun (with_files (make_dirs Main.BASE_DIR) s).

(** The state in which [main] is left when [driver.maximize_window()]
    raises. *)
Definition maximize_failed {B E} (s : state B E) : state B E :=
  emit EvMaximize
    (emit EvCreateDriver
       (with_files (make_dirs Main.BASE_DIR) (emit (EvMakedirs Main.BASE_DIR) s))).

(** Start-up succeeds from [s]: the output directory can be made, the
    driver manager hands out a path, Chrome starts on what [driver] makes
    of that path with [arguments], and the window can be maximized. *)
Definition starts_up {B E} {startup : Startup B} (s : state B E)
  (driver : string -> string) (arguments : list string) : Prop :=
  makedirs_raises Main.BASE_DIR (files s) = None /\
  (exists driver_path,
     install = inr driver_path /\
     chrome_raises (driver driver_path) arguments = None) /\
  maximize_raises (browser s) = None.


(** [pdf_path] has the extension [.pdf], in any letter case, and can be
    opened for writing. *)
Definition writable_pdf {host : Host} (pdf_path : string) : Prop :=
  lower (splitext_ext pdf_path) = ".pdf" /\ open_for_writing pdf_path = None.

(** The session exists and has not been released. *)
Definition session_open {E} (l : list (event E)) : Prop :=
  EvCreateDriver ∈ l /\ EvQuit ∉ l.

(** ** Further inputs to run the scripts on *)

Module Inputs.
Import Site.

(** A configuration whose [links] key is there but holds no mapping. *)
Definition null_links : filesystem :=
  {[ "configs/null.yaml" := FYaml (YMap [ ("links", YNull) ]) ]}.

(** A next-page control whose class has [disabled] inside a longer word. *)
Definition next_odd : element :=
  Element (Some "page_next") (Some "btn-undisabled-hover") blank.

Definition odd_page : page := Page (Some [Demo.sec "1"]) (Some next_odd).

Definition odd_site : list (string * list page) :=
  [ ("https://example.com/odd", [odd_page; Demo.second_page]) ].

(** The state in which the pagination loop starts on [odd_site]. *)
Definition odd_opened : state window handle :=
  settled (get "https://example.com/odd" (browser (Site.start odd_site ∅)))
          (loaded "https://example.com/odd" (Site.start odd_site ∅)).

(** Where webdriver manager puts the driver and its notices file. *)
Definition driver_dir : string :=
  "/Users/me/.wdm/drivers/chromedriver/mac64/131.0.6778.85/chromedriver-mac-arm64/".

End Inputs.

(** Hosts to run the scripts on. *)
Module Hosts.

(** What a reader gets back from a page of the PDF: each band value
    rounded down to an even number. *)
Definition coarse (im : image) : image :=
  {| im_mode := im_mode im;
     im_size := im_size im;
     im_data := map (map (fun v => 2 * N.div2 v)%N) (im_data im) |}.

(** Every path but those under [missing/] can be written; beside PDF
    the formats known are PNG, written as the first image, and JPEG, for
    which there is no writer of several frames. *)
Definition plain : Host := {|
  open_for_writing path :=
    if String.prefix "missing/" path then Some FileNotFoundError else None;
  pdf_page := coarse;
  pdf_page_mode _ := eq_refl;
  pdf_page_size _ := eq_refl;
  pdf_page_data im := length_map _ (im_data im);
  save_as ext ims :=
    if String.eqb ext ".png" then
      match ims with
      | im :: _ => inr (FImage im)
      | [] => inl ValueError
      end
    else if (String.eqb ext ".jpg" || String.eqb ext ".jpeg")%bool
    then inl KeyError
    else inl ValueError;
  save_as_no_extension _ := eq_refl
|}.

(** Directories can be made, the driver manager hands out the driver,
    Chrome starts, the window obeys. *)
Definition fair {B} : Startup B := {|
  mkdir_raises _ _ := None;
  install := inr (Inputs.driver_dir +:+ "chromedriver");
  chrome_raises _ _ := None;
  maximize_raises _ := None
|}.

(** The same, but the window cannot be maximized. *)
Definition stuck_window {B} : Startup B := {|
  mkdir_raises _ _ := None;
  install := inr (Inputs.driver_dir +:+ "chromedriver");
  chrome_raises _ _ := None;
  maximize_raises _ := Some WebDriverException
|}.

(** The driver manager hands out the notices file that lies beside the
    driver, which is no program Chrome's driver service can start. *)
Definition notices_first {B} : Startup B := {|
  mkdir_raises _ _ := None;
  install := inr (Inputs.driver_dir +:+ SrcDriver.notices);
  chrome_raises driver_path _ :=
    if endswith driver_path SrcDriver.notices then Some WebDriverException else None;
  maximize_raises _ := None
|}.

End Hosts.

(** ** A document without end: every page has a section and an enabled
    next-page control, and a click always shows a further page *)

Module Endless.

Inductive handle : Type :=
| Content
| Part (page_number : nat)
| Next.

Definition shot (h : handle) : image :=
  match h with
  | Part n => Image RGB (1, 1) [[N.of_nat n; 0; 0]%N]
  | _ => Image RGB (0, 0) []
  end.

(** The browser is the number of the page it shows. *)
#[global] Instance endless_driver : WebDriver nat handle := {
  get _ _ := 0;
  until_present _ _ b := Some b;
  idle _ b := b;
  find_element loc _ :=
    if Site.locator_eqb loc Main.content_locator then Some Content
    else if Site.locator_eqb loc Main.next_locator then Some Next
    else None;
  find_elements_in parent loc b :=
    match parent with
    | Content => if Site.locator_eqb loc Main.sections_locator then [Part b] else []
    | _ => []
    end;
  screenshot_as_png h _ := shot h;
  screenshot_saved _ _ _ := true;
  get_attribute h name _ :=
    match h with
    | Next => if String.eqb name "class" then Some "btn" else None
    | _ => None
    end;
  click h b := match h with Next => S b | _ => b end;
  maximize_window b := b;
  quit b := b
}.

Definition start : state nat handle := State 0 ∅ [] [] 1.

End Endless.

(** ** The capture paths, counted in decimal *)

(** The capture path of the number whose decimal digits, lowest first,
    are [d]. *)
Definition img_path_of_digits (d : Decimal.uint) : string :=
  let digits := NilEmpty.string_of_uint (Decimal.rev d) in
  path_join Main.IMAGES_DIR
    ((zeros (4 - String.length digits) +:+ digits) +:+ ".png").

(** Whether each of the [count] capture paths after the one of [d] sorts
    after the path before it. *)
Fixpoint sorted_run (count : nat) (d : Decimal.uint) : bool :=
  match count with
  | 0 => true
  | S count' =>
      let d' := Decimal.Little.succ d in
      ((if String.compare (img_path_of_digits d) (img_path_of_digits d') is Lt
        then true else false)
       && sorted_run count' d')%bool
  end.

(** ** The monad *)

Lemma keeps_ret {S A} (P : S -> Prop) (a : A) : keeps P (ret a).
Proof. intros s Hs. exact Hs. Qed.

Lemma keeps_raise {S A} (P : S -> Prop) e : keeps P (@raise S A e).
Proof. intros s Hs. exact Hs. Qed.

Lemma keeps_spin {S A} (P : S -> Prop) : keeps P (@spin S A).
Proof. intros s Hs. exact Hs. Qed.

Lemma keeps_bind {S A A'} (P : S -> Prop) (m : M S A) (k : A -> M S A') :
  keeps P m -> (forall a, keeps P (k a)) -> keeps P (bind m k).
Proof.
  intros Hm Hk s Hs. unfold bind.
  specialize (Hm s Hs). destruct (m s) as [[a|e|] s1]; simpl in *; auto.
  apply Hk. exact Hm.
Qed.

(** ** Strings: the file names of the captures *)

Lemma append_length (a b : string) :
  String.length (a +:+ b) = String.length a + String.length b.
Proof. induction a as [|c a IH]; simpl; [reflexivity | now rewrite IH]. Qed.

Lemma zeros_length k : String.length (zeros k) = k.
Proof. induction k; simpl; congruence. Qed.

Lemma uint_of_string_zeros k d :
  NilEmpty.uint_of_string (zeros k +:+ NilEmpty.string_of_uint d)
  = Some (Nat.iter k Decimal.D0 d).
Proof.
  induction k as [|k IH]; simpl.
  - apply NilEmpty.usu.
  - rewrite IH. reflexivity.
Qed.

Lemma of_uint_leading_zeros k d :
  Nat.of_uint (Nat.iter k Decimal.D0 d) = Nat.of_uint d.
Proof.
  induction k as [|k IH]; simpl; [reflexivity|].
  rewrite <- IH. reflexivity.
Qed.

Lemma int_of_str_format_04 n : int_of_str (format_04 n) = Some n.
Proof.
  unfold int_of_str, format_04, str_of_nat.
  rewrite uint_of_string_zeros. simpl.
  rewrite of_uint_leading_zeros, DecimalNat.Unsigned.of_to. reflexivity.
Qed.

Lemma format_04_length n :
  String.length (format_04 n) = 4 `max` String.length (str_of_nat n).
Proof.
  unfold format_04. cbv zeta. rewrite append_length, zeros_length. lia.
Qed.

Lemma format_04_no_slash n : String.prefix "/" (format_04 n +:+ ".png") = false.
Proof.
  pose proof (int_of_str_format_04 n) as Hi.
  pose proof (format_04_length n) as Hl.
  destruct (format_04 n) as [|c rest]; [simpl in Hl; lia|].
  unfold int_of_str in Hi. simpl in Hi.
  destruct (Ascii.ascii_dec c "/") as [->|Hc].
  - simpl in Hi. destruct (NilEmpty.uint_of_string rest); discriminate.
  - change (String.prefix "/" (String c (rest +:+ ".png")) = false).
    unfold String.prefix. destruct (Ascii.ascii_dec "/" c); [congruence|].
    reflexivity.
Qed.

Lemma img_path_eq n : img_path n = "output/images/" +:+ format_04 n +:+ ".png".
Proof.
  unfold img_path, path_join. rewrite format_04_no_slash. reflexivity.
Qed.

(** ** The log *)

Lemma captures_app {E} (l1 l2 : list (event E)) :
  captures (l1 ++ l2) = captures l1 ++ captures l2.
Proof.
  induction l1 as [|ev l1 IH]; simpl; [reflexivity|].
  destruct ev; simpl; rewrite ?IH; reflexivity.
Qed.

(** ** The numbering invariant of [collect_images] *)

Section Numbering.
Context {B E : Type} `{!WebDriver B E}.
Implicit Types (s : state B E) (base : list (event E)).

Lemma numbered_silent base s (b : B) fs ev :
  captures [ev] = [] ->
  numbered base s ->
  numbered base (State b fs (log s ++ [ev]) (all_images s) (global_step s)).
Proof.
  intros Hev (evs & Hlog & Himgs & Hseq & Hstep).
  exists (evs ++ [ev]). simpl. repeat split; try assumption.
  - rewrite Hlog. now rewrite app_assoc.
  - rewrite captures_app, Hev, app_nil_r. exact Himgs.
Qed.

Lemma numbered_init base s :
  log s = base -> numbered base (Main.init_locals s).
Proof.
  intros <-. exists []. simpl. rewrite app_nil_r. auto.
Qed.

Lemma keeps_numbered_makedirs base p : keeps (numbered base) (makedirs (B:=B) p).
Proof. intros s Hs. now apply numbered_silent. Qed.

Lemma keeps_numbered_get base url : keeps (numbered base) (driver_get url).
Proof.
  intros s Hs. simpl. unfold on_browser, emit. simpl.
  now apply (numbered_silent base s).
Qed.

Lemma keeps_numbered_wait base t loc : keeps (numbered base) (wait_until t loc).
Proof.
  intros s Hs. unfold wait_until.
  destruct (until_present t loc (browser s)); simpl;
    now apply (numbered_silent base s).
Qed.

Lemma keeps_numbered_sleep base n : keeps (numbered base) (sleep n).
Proof. intros s Hs. simpl. now apply (numbered_silent base s). Qed.

Lemma keeps_numbered_find base loc : keeps (numbered base) (driver_find_element loc).
Proof.
  intros s Hs. unfold driver_find_element.
  destruct (find_element loc (browser s)); simpl;
    now apply (numbered_silent base s).
Qed.

Lemma keeps_numbered_find_all base e loc :
  keeps (numbered base) (element_find_elements e loc).
Proof. intros s Hs. simpl. now apply (numbered_silent base s). Qed.

Lemma keeps_numbered_attribute base e name :
  keeps (numbered base) (element_get_attribute e name).
Proof. intros s Hs. simpl. now apply (numbered_silent base s). Qed.

Lemma keeps_numbered_click base e : keeps (numbered base) (element_click e).
Proof. intros s Hs. simpl. now apply (numbered_silent base s). Qed.

Lemma keeps_numbered_capture base section :
  keeps (numbered base) (Main.capture section).
Proof.
  intros s (evs & Hlog & Himgs & Hseq & Hstep).
  exists (evs ++ [EvScreenshot section (img_path (global_step s));
                  EvGetAttribute section "id"]).
  simpl. repeat split.
  - rewrite Hlog, <- !app_assoc. reflexivity.
  - rewrite captures_app. simpl. rewrite fmap_app, <- Himgs. reflexivity.
  - rewrite length_app. simpl. rewrite Nat.add_1_r, seq_S, fmap_app.
    rewrite <- Hseq. simpl. now rewrite Hstep.
  - rewrite length_app, Hstep. simpl. lia.
Qed.

Lemma keeps_numbered_for_sections base sections :
  keeps (numbered base) (Main.for_sections sections).
Proof.
  induction sections as [|section rest IH]; simpl.
  - apply keeps_ret.
  - apply keeps_bind; [apply keeps_numbered_capture | intros _; exact IH].
Qed.

Lemma keeps_numbered_loop base fuel :
  keeps (numbered base) (Main.pagination_loop fuel).
Proof.
  induction fuel as [|fuel IH]; simpl; [apply keeps_spin|].
  apply keeps_bind; [apply keeps_numbered_find | intros content].
  apply keeps_bind; [apply keeps_numbered_find_all | intros sections].
  destruct sections as [|section rest]; [apply keeps_ret|].
  apply keeps_bind; [apply keeps_numbered_for_sections | intros _].
  apply keeps_bind; [apply keeps_numbered_find | intros next_btn].
  apply keeps_bind; [apply keeps_numbered_attribute | intros [classes|]];
    [|apply keeps_raise].
  destruct (str_in "disabled" classes); [apply keeps_ret|].
  apply keeps_bind; [apply keeps_numbered_click | intros _].
  apply keeps_bind; [apply keeps_numbered_wait | intros _].
  apply keeps_bind; [apply keeps_numbered_sleep | intros _].
  exact IH.
Qed.

Lemma keeps_numbered_document base url fuel :
  keeps (numbered base) (Main.process_document url fuel).
Proof.
  unfold Main.process_document.
  apply keeps_bind; [apply keeps_numbered_get | intros _].
  apply keeps_bind; [apply keeps_numbered_wait | intros _].
  apply keeps_bind; [apply keeps_numbered_sleep | intros _].
  apply keeps_numbered_loop.
Qed.

Lemma keeps_numbered_links base links fuel :
  keeps (numbered base) (Main.for_links links fuel).
Proof.
  induction links as [|[name url] rest IH]; simpl; [apply keeps_ret|].
  apply keeps_bind; [apply keeps_numbered_document | intros _; exact IH].
Qed.

(** Whatever the outcome of [collect_images], the state it leaves is
    numbered from the log it appended to. *)
Lemma collect_images_numbered links fuel s :
  numbered (log s ++ [EvMakedirs Main.IMAGES_DIR])
           (snd (Main.collect_images links fuel s)).
Proof.
  unfold Main.collect_images, makedirs. unfold bind at 1. unfold bind at 1.
  set (s1 := Main.init_locals _).
  assert (Hs1 : numbered (log s ++ [EvMakedirs Main.IMAGES_DIR]) s1)
    by now apply numbered_init.
  revert Hs1. generalize s1. clear s1.
  change (keeps (numbered (log s ++ [EvMakedirs (E:=E) Main.IMAGES_DIR]))
            (bind (Main.for_links links fuel)
                  (fun _ s => (Ok (all_images s), s)))).
  apply keeps_bind; [apply keeps_numbered_links|].
  intros _ s2 Hs2. exact Hs2.
Qed.

(** When [collect_images] returns, it returns the list it built. *)
Lemma collect_images_returns links fuel s imgs :
  fst (Main.collect_images links fuel s) = Ok imgs ->
  imgs = all_images (snd (Main.collect_images links fuel s)).
Proof.
  unfold Main.collect_images, makedirs. unfold bind at 1. unfold bind at 1.
  unfold bind.
  destruct (Main.for_links links fuel _) as [[[]|e|] s2]; simpl;
    congruence.
Qed.

End Numbering.

(** ** The two entry points share their core *)

Lemma for_sections_same {B E} `{!WebDriver B E} (sections : list E) :
  SrcMain.for_sections sections = Main.for_sections sections.
Proof.
  induction sections as [|section rest IH]; simpl; [reflexivity|].
  now rewrite IH.
Qed.

Lemma pagination_loop_same {B E} `{!WebDriver B E} fuel :
  SrcMain.pagination_loop (B:=B) fuel = Main.pagination_loop fuel.
Proof.
  induction fuel as [|fuel IH]; simpl; [reflexivity|].
  rewrite IH. reflexivity.
Qed.

Lemma for_links_same {B E} `{!WebDriver B E} links fuel :
  SrcMain.for_links (B:=B) links fuel = Main.for_links links fuel.
Proof.
  induction links as [|[name url] rest IH]; simpl; [reflexivity|].
  rewrite IH. unfold SrcMain.process_document, Main.process_document.
  now rewrite pagination_loop_same.
Qed.

Lemma collect_images_same {B E} `{!WebDriver B E} links fuel :
  SrcMain.collect_images (B:=B) links fuel = Main.collect_images links fuel.
Proof.
  unfold SrcMain.collect_images, Main.collect_images.
  now rewrite for_links_same.
Qed.

Lemma open_all_same images fs :
  SrcMain.open_all images fs = Main.open_all images fs.
Proof.
  induction images as [|img rest IH]; simpl; [reflexivity|].
  now rewrite IH.
Qed.

Lemma images_to_pdf_same {host : Host} images pdf_path fs :
  SrcMain.images_to_pdf images pdf_path fs = Main.images_to_pdf images pdf_path fs.
Proof.
  unfold SrcMain.images_to_pdf, Main.images_to_pdf.
  now rewrite open_all_same.
Qed.

(** ** C1: the global sequence counter *)

(** C1.  In both entry points, whatever the browser does and however the
    run ends, the captures [collect_images] makes are written, in order,
    to the paths numbered 1, 2, 3, ... across all documents: the k-th
    capture of the run goes to [img_path k], the counter stands one past
    the number of captures, and the list that is returned is the list of
    these paths in capture order.  The file name of capture [n] is
    [f"{n:04}"] followed by [.png] inside [output/images]: the decimal
    digits of [n], read back as [n], zero-filled to four characters
    ([0001.png] for the first). *)
Theorem global_sequence_counter {B E} `{!WebDriver B E}
    (links : list (string * string)) (fuel : nat) (s : state B E) :
  let run := Main.collect_images links fuel s in
  SrcMain.collect_images links fuel s = run /\
  (exists evs,
     log (snd run) = log s ++ EvMakedirs Main.IMAGES_DIR :: evs /\
     snd <$> captures evs = img_path <$> seq 1 (length (captures evs)) /\
     global_step (snd run) = S (length (captures evs)) /\
     match fst run with
     | Ok images => images = snd <$> captures evs
     | _ => True
     end) /\
  (forall n,
     img_path n = "output/images/" +:+ format_04 n +:+ ".png" /\
     int_of_str (format_04 n) = Some n /\
     String.length (format_04 n) = 4 `max` String.length (str_of_nat n)) /\
  img_path 1 = "output/images/0001.png".
Proof.
  intros run. split; [now rewrite collect_images_same|].
  split; [|split; [|reflexivity]].
  - destruct (collect_images_numbered links fuel s)
      as (evs & Hlog & Himgs & Hseq & Hstep). fold run in Hlog, Himgs, Hseq, Hstep.
    exists evs. rewrite <- app_assoc in Hlog. split; [exact Hlog|].
    assert (Hlen : length (all_images (snd run)) = length (captures evs))
      by now rewrite Himgs, length_fmap.
    split; [now rewrite <- Himgs, <- Hlen|].
    split; [now rewrite <- Hlen|].
    destruct (fst run) as [images| |] eqn:Hrun; [|exact I|exact I].
    rewrite <- Himgs. now apply collect_images_returns.
  - intros n. split; [apply img_path_eq|].
    split; [apply int_of_str_format_04 | apply format_04_length].
Qed.

(** ** One turn of the pagination loop *)

Section Loop.
Context {B E : Type} `{!WebDriver B E}.
Implicit Types (s : state B E).

Lemma captures_capture_events n (sections : list E) :
  captures (capture_events n sections)
  = zip sections (img_path <$> seq n (length sections)).
Proof.
  revert n. induction sections as [|section rest IH]; intros n; simpl;
    [reflexivity|].
  now rewrite IH.
Qed.

Lemma capture_run section s :
  Main.capture section s = (Ok tt, captured [section] s).
Proof.
  unfold Main.capture, captured, bind. simpl.
  rewrite Nat.add_1_r, <- app_assoc. reflexivity.
Qed.

Lemma captured_cons section rest s :
  captured rest (captured [section] s) = captured (section :: rest) s.
Proof.
  unfold captured. simpl. rewrite !Nat.add_1_r, <- !app_assoc. simpl.
  rewrite Nat.add_succ_r. reflexivity.
Qed.

(** Capturing never fails and never touches the browser. *)
Lemma for_sections_run sections s :
  Main.for_sections sections s = (Ok tt, captured sections s).
Proof.
  revert s. induction sections as [|section rest IH]; intros s; simpl.
  - unfold ret, captured. simpl. rewrite !app_nil_r, Nat.add_0_r.
    now destruct s.
  - unfold bind. rewrite capture_run, IH, captured_cons. reflexivity.
Qed.

Lemma loop_no_content fuel s :
  find_element Main.content_locator (browser s) = None ->
  Main.pagination_loop (S fuel) s
  = (Raise NoSuchElementException, emit (EvFind Main.content_locator) s).
Proof.
  intros Hc. simpl. unfold bind, driver_find_element. now rewrite Hc.
Qed.

Lemma loop_no_sections fuel s content :
  find_element Main.content_locator (browser s) = Some content ->
  find_elements_in content Main.sections_locator (browser s) = [] ->
  Main.pagination_loop (S fuel) s
  = (Ok NoSections,
     emit (EvFindAll content Main.sections_locator)
          (emit (EvFind Main.content_locator) s)).
Proof.
  intros Hc Hs. simpl. unfold bind, driver_find_element. rewrite Hc.
  unfold element_find_elements. simpl. now rewrite Hs.
Qed.

Lemma loop_no_next fuel s content section rest :
  find_element Main.content_locator (browser s) = Some content ->
  find_elements_in content Main.sections_locator (browser s) = section :: rest ->
  find_element Main.next_locator (browser s) = None ->
  Main.pagination_loop (S fuel) s
  = (Raise NoSuchElementException,
     emit (EvFind Main.next_locator)
          (page_captured content (section :: rest) s)).
Proof.
  intros Hc Hs Hn. simpl. unfold bind at 1. unfold driver_find_element at 1.
  rewrite Hc. unfold bind at 1. unfold element_find_elements at 1. simpl.
  rewrite Hs. unfold bind at 1. rewrite for_sections_run.
  unfold bind, driver_find_element. simpl. now rewrite Hn.
Qed.

Lemma loop_next fuel s content section rest next_btn :
  find_element Main.content_locator (browser s) = Some content ->
  find_elements_in content Main.sections_locator (browser s) = section :: rest ->
  find_element Main.next_locator (browser s) = Some next_btn ->
  let s3 := next_checked next_btn (page_captured content (section :: rest) s) in
  Main.pagination_loop (S fuel) s
  = match get_attribute next_btn "class" (browser s) with
    | None => (Raise TypeError, s3)
    | Some classes =>
        if str_in "disabled" classes then (Ok NextDisabled, s3)
        else
          let s4 := clicked next_btn s3 in
          match until_present Main.WAIT Main.content_locator (browser s4) with
          | None =>
              (Raise TimeoutException,
               emit (EvUntil Main.WAIT Main.content_locator) s4)
          | Some b => Main.pagination_loop fuel (settled b s4)
          end
    end.
Proof.
  intros Hc Hs Hn s3. simpl. unfold bind at 1. unfold driver_find_element at 1.
  rewrite Hc. unfold bind at 1. unfold element_find_elements at 1. simpl.
  rewrite Hs. unfold bind at 1. rewrite for_sections_run.
  unfold bind at 1. unfold driver_find_element at 1. simpl. rewrite Hn.
  unfold bind at 1. unfold element_get_attribute at 1. simpl.
  destruct (get_attribute next_btn "class" (browser s)) as [classes|];
    [|reflexivity].
  destruct (str_in "disabled" classes); [reflexivity|].
  unfold bind at 1. unfold element_click at 1.
  unfold bind at 1. unfold wait_until at 1. simpl.
  destruct (until_present _ _ _) as [b|]; reflexivity.
Qed.

(** A loop that returns has stopped on a page without sections, or on a
    page whose next-page control is disabled. *)
Lemma loop_returns_stopped fuel : forall s r s',
  Main.pagination_loop fuel s = (Ok r, s') -> stopped_at r (browser s').
Proof.
  induction fuel as [|fuel IH]; intros s r s' Hrun; [discriminate|].
  destruct (find_element Main.content_locator (browser s)) as [content|] eqn:Hc;
    [|rewrite loop_no_content in Hrun by assumption; discriminate].
  destruct (find_elements_in content Main.sections_locator (browser s))
    as [|section rest] eqn:Hs.
  { rewrite (loop_no_sections _ _ content) in Hrun by assumption.
    injection Hrun as <- <-. exists content. auto. }
  destruct (find_element Main.next_locator (browser s)) as [next_btn|] eqn:Hn;
    [|rewrite (loop_no_next _ _ content section rest) in Hrun by assumption;
      discriminate].
  rewrite (loop_next _ _ content section rest next_btn) in Hrun by assumption.
  cbv zeta in Hrun.
  destruct (get_attribute next_btn "class" (browser s)) as [classes|] eqn:Ha;
    [|discriminate].
  destruct (str_in "disabled" classes) eqn:Hd.
  - injection Hrun as <- <-. exists content. simpl. split; [assumption|].
    split; [now rewrite Hs|]. exists next_btn, classes. auto.
  - destruct (until_present _ _ _) as [b|]; [|discriminate].
    exact (IH _ _ _ Hrun).
Qed.

Lemma process_document_run url fuel s :
  Main.process_document url fuel s
  = match until_present Main.WAIT Main.content_locator (get url (browser s)) with
    | None =>
        (Raise TimeoutException,
         emit (EvUntil Main.WAIT Main.content_locator) (loaded url s))
    | Some b => Main.pagination_loop fuel (settled b (loaded url s))
    end.
Proof.
  unfold Main.process_document. unfold bind at 1. unfold driver_get at 1.
  unfold bind at 1. unfold wait_until at 1. simpl.
  destruct (until_present _ _ _) as [b|]; reflexivity.
Qed.

Lemma for_links_cons name url rest fuel s :
  Main.for_links ((name, url) :: rest) fuel s
  = match Main.process_document url fuel s with
    | (Ok _, s') => Main.for_links rest fuel s'
    | (Raise e, s') => (Raise e, s')
    | (OutOfFuel, s') => (OutOfFuel, s')
    end.
Proof. reflexivity. Qed.

End Loop.

(** ** Runs on a paged site *)

Section OnSite.
Import Site.
Implicit Types (s : state window handle) (b : window) (p : page).

Lemma extends_refl s : extends s s [].
Proof.
  split; [reflexivity|]. exists []. simpl.
  rewrite !app_nil_r, Nat.add_0_r. auto.
Qed.

Lemma extends_trans s s1 s2 a c :
  extends s s1 a -> extends s1 s2 c -> extends s s2 (a ++ c).
Proof.
  intros (Hsite1 & evs1 & Hlog1 & Hcap1 & Himg1 & Hstep1)
         (Hsite2 & evs2 & Hlog2 & Hcap2 & Himg2 & Hstep2).
  split; [congruence|]. exists (evs1 ++ evs2).
  rewrite length_app, seq_app, !fmap_app.
  split; [rewrite Hlog2, Hlog1; now rewrite app_assoc|].
  split; [|split].
  - rewrite captures_app, Hcap1, Hcap2, Hstep1.
    symmetry. apply zip_with_app. now rewrite !length_fmap, length_seq.
  - rewrite Himg2, Himg1, Hstep1. now rewrite app_assoc.
  - rewrite Hstep2, Hstep1. lia.
Qed.

Lemma extends_emit s ev :
  captures [ev] = [] -> extends s (emit ev s) [].
Proof.
  intros Hev. split; [reflexivity|]. exists [ev]. simpl.
  rewrite app_nil_r, Nat.add_0_r. auto.
Qed.

Lemma extends_on_browser s f :
  site (f (browser s)) = site (browser s) -> extends s (on_browser f s) [].
Proof.
  intros Hf. split; [exact Hf|]. exists []. simpl.
  rewrite !app_nil_r, Nat.add_0_r. auto.
Qed.

Lemma extends_captured s els : extends s (captured (Node <$> els) s) els.
Proof.
  split; [reflexivity|]. exists (capture_events (global_step s) (Node <$> els)).
  simpl. rewrite captures_capture_events, !length_fmap. auto.
Qed.

Lemma extends_step s s1 s2 els :
  extends s s1 [] -> extends s1 s2 els -> extends s s2 els.
Proof. intros H1 H2. exact (extends_trans _ _ _ [] els H1 H2). Qed.

Lemma extends_then s s1 s2 els :
  extends s s1 els -> extends s1 s2 [] -> extends s s2 els.
Proof.
  intros H1 H2. rewrite <- (app_nil_r els).
  exact (extends_trans _ _ _ els [] H1 H2).
Qed.

Lemma site_content b p descendants :
  shown b = Some p -> content p = Some descendants ->
  find_element Main.content_locator b = Some (Container descendants).
Proof.
  intros Hp Hc. simpl. unfold site_find_element. simpl. rewrite Hp. simpl.
  now rewrite Hc.
Qed.

Lemma site_next b p :
  shown b = Some p ->
  find_element Main.next_locator b = Node <$> next_control p.
Proof. intros Hp. simpl. unfold site_find_element. simpl. now rewrite Hp. Qed.

Lemma site_sections descendants b :
  find_elements_in (Container descendants) Main.sections_locator b
  = Node <$> filter (fun e => is_section e = true) descendants.
Proof. reflexivity. Qed.

Lemma well_paged_content pages :
  well_paged pages = true ->
  exists p rest descendants, pages = p :: rest /\ content p = Some descendants.
Proof.
  destruct pages as [|p rest]; simpl; [discriminate|].
  destruct (content p) as [descendants|] eqn:Hc; [|discriminate].
  intros _. eauto.
Qed.

(** On a well-paged document the loop returns, having captured every
    section of every page, page by page. *)
Lemma site_loop pages :
  well_paged pages = true ->
  forall fuel s,
    length pages <= fuel ->
    current (browser s) = pages ->
    exists r s',
      Main.pagination_loop fuel s = (Ok r, s') /\
      extends s s' (document_sections pages).
Proof.
  induction pages as [|p rest IH]; [discriminate|].
  intros Hwp fuel s Hfuel Hcur.
  destruct fuel as [|fuel]; [simpl in Hfuel; lia|].
  simpl in Hwp.
  destruct (content p) as [descendants|] eqn:Hcontent; [|discriminate].
  assert (Hshown : shown (browser s) = Some p)
    by (unfold shown; now rewrite Hcur).
  pose proof (site_content _ _ _ Hshown Hcontent) as Hfind.
  pose proof (site_sections descendants (browser s)) as Hsecs.
  unfold document_sections. simpl. fold (document_sections rest).
  assert (Hps : page_sections p = filter (fun e => is_section e = true) descendants)
    by (unfold page_sections; now rewrite Hcontent).
  rewrite <- Hps in Hsecs.
  destruct (page_sections p) as [|sec secs] eqn:Hpage.
  { destruct rest; [|discriminate].
    eexists _, _. split; [now apply (loop_no_sections _ _ _ Hfind)|].
    simpl. apply (extends_step _ (emit (EvFind Main.content_locator) s));
      now apply extends_emit. }
  simpl in Hsecs.
  pose proof (site_next _ _ Hshown) as Hnext.
  unfold next_disabled in Hwp.
  destruct (next_control p) as [btn|] eqn:Hbtn; [|discriminate].
  simpl in Hnext, Hwp.
  pose proof (loop_next fuel s _ _ _ _ Hfind Hsecs Hnext) as Hrun.
  cbv zeta in Hrun.
  change (get_attribute (Node btn) "class" (browser s)) with (el_class btn) in Hrun.
  destruct (el_class btn) as [classes|]; [|discriminate]. simpl in Hwp.
  set (s2 := page_captured _ _ s) in Hrun.
  assert (Hs2 : extends s s2 (sec :: secs)).
  { unfold s2, page_captured.
    apply (extends_step _ (emit (EvFind Main.content_locator) s));
      [now apply extends_emit|].
    apply (extends_step _ (emit (EvFindAll (Container descendants) Main.sections_locator)
                                (emit (EvFind Main.content_locator) s)));
      [now apply extends_emit|].
    apply (extends_captured _ (sec :: secs)). }
  assert (Hs3 : extends s (next_checked (Node btn) s2) (sec :: secs)).
  { apply (extends_then _ s2); [exact Hs2|].
    apply (extends_step _ (emit (EvFind Main.next_locator) s2));
      now apply extends_emit. }
  destruct (str_in "disabled" classes).
  { destruct rest; [|discriminate].
    eexists _, _. split; [exact Hrun|]. simpl. now rewrite app_nil_r. }
  destruct (well_paged_content _ Hwp) as (p' & rest' & descendants' & -> & Hc').
  set (s4 := clicked (Node btn) (next_checked (Node btn) s2)) in Hrun.
  assert (Hcur4 : current (browser s4) = p' :: rest')
    by (simpl; now rewrite Hcur).
  assert (Huntil : until_present Main.WAIT Main.content_locator (browser s4)
                   = Some (browser s4)).
  { simpl. unfold site_find_element. simpl. rewrite Hcur. simpl. now rewrite Hc'. }
  rewrite Huntil in Hrun.
  destruct (IH Hwp fuel (settled (browser s4) s4)) as (r & s' & Hloop & Hext).
  { simpl in Hfuel |- *. lia. }
  { simpl. now rewrite Hcur. }
  exists r, s'. split; [exact (eq_trans Hrun Hloop)|].
  apply (extends_trans _ (settled (browser s4) s4)); [|exact Hext].
  apply (extends_then _ _ _ _ Hs3).
  apply (extends_step _ (emit (EvClick (Node btn)) (next_checked (Node btn) s2)));
    [now apply extends_emit|].
  apply (extends_step _ s4); [now apply extends_on_browser|].
  apply (extends_step _ (emit (EvUntil Main.WAIT Main.content_locator) s4));
    [now apply extends_emit|].
  apply (extends_step _ (on_browser (fun _ => browser s4)
                           (emit (EvUntil Main.WAIT Main.content_locator) s4)));
    [now apply extends_on_browser|].
  apply (extends_step _ (emit (EvSleep 1)
                           (on_browser (fun _ => browser s4)
                              (emit (EvUntil Main.WAIT Main.content_locator) s4))));
    [now apply extends_emit|].
  now apply extends_on_browser.
Qed.

Lemma site_document url fuel s :
  well_paged (dict_get url (site (browser s)) []) = true ->
  length (dict_get url (site (browser s)) []) <= fuel ->
  exists r s',
    Main.process_document url fuel s = (Ok r, s') /\
    extends s s' (document_sections (dict_get url (site (browser s)) [])).
Proof.
  intros Hwp Hfuel. rewrite process_document_run.
  destruct (well_paged_content _ Hwp) as (p & rest & descendants & Hpages & Hc).
  assert (Huntil : until_present Main.WAIT Main.content_locator
                     (get url (browser s)) = Some (get url (browser s))).
  { simpl. unfold site_find_element, shown. simpl. rewrite Hpages. simpl.
    now rewrite Hc. }
  rewrite Huntil.
  destruct (site_loop _ Hwp fuel (settled (get url (browser s)) (loaded url s)))
    as (r & s' & Hloop & Hext); [exact Hfuel | reflexivity |].
  exists r, s'. split; [exact Hloop|].
  apply (extends_step _ (settled (get url (browser s)) (loaded url s)));
    [|exact Hext].
  apply (extends_step _ (emit (EvGet url) s)); [now apply extends_emit|].
  apply (extends_step _ (loaded url s)); [now apply extends_on_browser|].
  apply (extends_step _ (emit (EvUntil Main.WAIT Main.content_locator) (loaded url s)));
    [now apply extends_emit|].
  apply (extends_step _ (on_browser (fun _ => get url (browser s))
                           (emit (EvUntil Main.WAIT Main.content_locator)
                              (loaded url s))));
    [now apply extends_on_browser|].
  apply (extends_step _ (emit (EvSleep 1)
                           (on_browser (fun _ => get url (browser s))
                              (emit (EvUntil Main.WAIT Main.content_locator)
                                 (loaded url s)))));
    [now apply extends_emit|].
  now apply extends_on_browser.
Qed.

Lemma site_links links fuel : forall s,
  walkable (site (browser s)) links fuel ->
  exists s',
    Main.for_links links fuel s = (Ok tt, s') /\
    extends s s' (run_sections (site (browser s)) links).
Proof.
  induction links as [|[name url] rest IH]; intros s Hwalk.
  - exists s. split; [reflexivity | apply extends_refl].
  - apply Forall_cons in Hwalk as [[Hwp Hfuel] Hrest]. simpl in Hwp, Hfuel.
    destruct (site_document url fuel s Hwp Hfuel) as (r & s1 & Hdoc & Hext1).
    assert (Hsite : site (browser s1) = site (browser s)) by apply Hext1.
    destruct (IH s1) as (s2 & Hlinks & Hext2); [now rewrite Hsite|].
    exists s2. rewrite for_links_cons, Hdoc. split; [exact Hlinks|].
    rewrite Hsite in Hext2.
    exact (extends_trans _ _ _ _ _ Hext1 Hext2).
Qed.


End OnSite.

(** ** C2: how many captures, and in which order *)



(** ** The PDF assembler *)

Lemma open_all_readable images fs ims :
  Forall2 (fun path im => fs !! path = Some (FImage im)) images ims ->
  Main.open_all images fs = Ok (convert_rgb <$> ims).
Proof.
  induction 1 as [|path im images ims Hpath _ IH]; simpl; [reflexivity|].
  unfold image_open. now rewrite Hpath, IH.
Qed.

Lemma readable_opens fs path :
  readable fs path = true -> exists im, fs !! path = Some (FImage im).
Proof.
  unfold readable. destruct (fs !! path) as [[]|]; try discriminate. eauto.
Qed.




Lemma convert_rgb_of_rgb im : im_mode im = RGB -> convert_rgb im = im.
Proof.
  destruct im as [m size data]. simpl. intros ->. unfold convert_rgb. simpl.
  f_equal. induction data as [|px data IH]; [reflexivity|].
  rewrite fmap_cons, IH. reflexivity.
Qed.

Section Save.
Context {host : Host}.
Implicit Types (ims : list image) (fs : filesystem).

(** A name with the extension [.pdf], in any letter case: a PDF is
    written if the file can be opened. *)
Lemma image_save_pdf ims path fs :
  lower (splitext_ext path) = ".pdf" ->
  image_save ims path fs
  = match open_for_writing path with
    | None => (Ok tt, <[path := FPdf (pdf_page <$> ims)]> fs)
    | Some e => (Raise e, fs)
    end.
Proof. intros Hext. unfold image_save. now rewrite Hext. Qed.

(** A name without extension: Pillow knows no format for it. *)
Lemma image_save_no_extension ims path fs :
  splitext_ext path = "" ->
  image_save ims path fs = (Raise ValueError, fs).
Proof.
  intros Hext. unfold image_save. rewrite Hext. simpl.
  now rewrite save_as_no_extension.
Qed.

(** Whatever its outcome, [save] touches no path but its own. *)
Lemma image_save_frame ims path fs other :
  other <> path -> snd (image_save ims path fs) !! other = fs !! other.
Proof.
  intros Hother. unfold image_save.
  destruct (if String.eqb _ _ then _ else _) as [e|f]; simpl; [reflexivity|].
  destruct (open_for_writing path); simpl; [reflexivity|].
  now rewrite lookup_insert_ne.
Qed.

(** Saving the same images again changes nothing more. *)
Lemma image_save_twice ims path fs :
  image_save ims path (snd (image_save ims path fs)) = image_save ims path fs.
Proof.
  unfold image_save.
  destruct (if String.eqb _ _ then _ else _) as [e|f]; [reflexivity|].
  destruct (open_for_writing path); [reflexivity|].
  simpl. now rewrite insert_insert_eq.
Qed.

Lemma images_to_pdf_opened images pdf_path fs first rest :
  Main.open_all images fs = Ok (first :: rest) ->
  Main.images_to_pdf images pdf_path fs = image_save (first :: rest) pdf_path fs.
Proof. intros Hopen. unfold Main.images_to_pdf. now rewrite Hopen. Qed.

(** On a non-empty list of images under a name with the extension
    [.pdf]: the pages are the converted images, as the PDF writer stores
    them. *)
Lemma images_to_pdf_writes images pdf_path fs ims :
  images <> [] ->
  Forall2 (fun path im => fs !! path = Some (FImage im)) images ims ->
  lower (splitext_ext pdf_path) = ".pdf" ->
  Main.images_to_pdf images pdf_path fs
  = match open_for_writing pdf_path with
    | None => (Ok tt, <[pdf_path := FPdf (pdf_page <$> (convert_rgb <$> ims))]> fs)
    | Some e => (Raise e, fs)
    end.
Proof.
  intros Hne Hall Hext.
  pose proof (open_all_readable _ _ _ Hall) as Hopen.
  destruct Hall as [|path im images ims _ _]; [congruence|].
  rewrite fmap_cons in Hopen.
  rewrite (images_to_pdf_opened _ _ _ _ _ Hopen), (image_save_pdf _ _ _ Hext).
  reflexivity.
Qed.

End Save.

(** C3.  [images_to_pdf] on an empty list raises [IndexError] (the index
    error of [pil_images[0]]) and leaves the disk as it was: nothing is
    created at the output path.  Both entry points. *)
Theorem images_to_pdf_empty_list {host : Host} (pdf_path : string) (fs : filesystem) :
  Main.images_to_pdf [] pdf_path fs = (Raise IndexError, fs) /\
  SrcMain.images_to_pdf [] pdf_path fs = (Raise IndexError, fs) /\
  snd (Main.images_to_pdf [] pdf_path fs) !! pdf_path = fs !! pdf_path.
Proof. repeat split. Qed.




(** C5, as the program has it.  On a non-empty list of paths that all
    hold images, every image is loaded and converted to three-band colour,
    in the order of the list, whatever its mode (grey, with or without
    alpha, are accepted); the conversion keeps the size and the number of
    pixels, and leaves an image that is in colour already as it is.  What
    is written then depends on the name of the output: when its extension
    is [.pdf], in any letter case, and the file can be opened, one PDF is
    written there, with one page per image, in the order of the list,
    page 1 being the first image, each page in colour and of the size of
    its image, as the PDF writer stores it; when the file cannot be
    opened, the error of the opening is raised and nothing is written;
    and a name without extension raises [ValueError] and nothing is
    written.  Both entry points. *)
Theorem images_to_pdf_pages {host : Host}
    (images : list string) (pdf_path : string) (fs : filesystem)
    (ims : list image) :
  images <> [] ->
  Forall2 (fun path im => fs !! path = Some (FImage im)) images ims ->
  let opened := convert_rgb <$> ims in
  let pages := pdf_page <$> opened in
  Main.open_all images fs = Ok opened /\
  Forall2 (fun im c =>
             im_mode c = RGB /\
             im_size c = im_size im /\
             length (im_data c) = length (im_data im) /\
             (im_mode im = RGB -> c = im)) ims opened /\
  (lower (splitext_ext pdf_path) = ".pdf" ->
   Main.images_to_pdf images pdf_path fs
   = match open_for_writing pdf_path with
     | None => (Ok tt, <[pdf_path := FPdf pages]> fs)
     | Some e => (Raise e, fs)
     end) /\
  (splitext_ext pdf_path = "" ->
   Main.images_to_pdf images pdf_path fs = (Raise ValueError, fs)) /\
  SrcMain.images_to_pdf images pdf_path fs = Main.images_to_pdf images pdf_path fs /\
  length pages = length images /\
  head pages = (fun im => pdf_page (convert_rgb im)) <$> head ims /\
  Forall2 (fun im page =>
             im_mode page = RGB /\
             im_size page = im_size im /\
             length (im_data page) = length (im_data im)) ims pages.
Proof.
  intros Hne Hall opened pages.
  assert (Hopen : Main.open_all images fs = Ok opened)
    by exact (open_all_readable _ _ _ Hall).
  assert (Hcons : exists first rest, opened = first :: rest).
  { unfold opened. destruct Hall as [|path im images ims _ _]; [congruence|].
    rewrite fmap_cons. eauto. }
  destruct Hcons as (first & rest & Hcons).
  split; [exact Hopen|].
  split.
  { unfold opened. clear. induction ims as [|im ims IH]; constructor; [|exact IH].
    split; [reflexivity|]. split; [reflexivity|].
    split; [simpl; apply length_fmap|apply convert_rgb_of_rgb]. }
  split; [intros Hext; now apply images_to_pdf_writes|].
  split.
  { intros Hext. rewrite Hcons in Hopen.
    rewrite (images_to_pdf_opened _ _ _ _ _ Hopen).
    now apply image_save_no_extension. }
  split; [apply images_to_pdf_same|].
  split.
  { unfold pages, opened. rewrite !length_fmap. symmetry.
    eapply Forall2_length, Hall. }
  split; [unfold pages, opened; now destruct ims|].
  unfold pages, opened. clear.
  induction ims as [|im ims IH]; constructor; [|exact IH].
  split; [now rewrite pdf_page_mode|].
  split; [now rewrite pdf_page_size|].
  rewrite pdf_page_data. simpl. apply length_fmap.
Qed.

Lemma images_to_pdf_pages_witness :
  Main.images_to_pdf (host := Hosts.plain)
    ["output/images/0001.png"; "output/images/0002.png"]
    "output/result.pdf" Demo.disk
  = (Ok tt,
     <["output/result.pdf" :=
         FPdf [ Image RGB (2, 1) [[6; 6; 6]; [200; 200; 200]]%N;
                Image RGB (1, 1) [[0; 2; 2]]%N ]]> Demo.disk).
Proof.
  refine (proj1 (proj2 (proj2 (images_to_pdf_pages (host := Hosts.plain)
                   ["output/images/0001.png"; "output/images/0002.png"]
                   "output/result.pdf" Demo.disk
                   [Demo.grey; Demo.translucent] _ _))) _).
  - discriminate.
  - repeat constructor.
  - reflexivity.
Defined.

(** The output is a PDF only under a name that says so.  With
    [--pdf-filename result] the two captures on the disk are loaded and
    converted, and [save], which is given no format, raises [ValueError]:
    no PDF is written.  And where a PDF is written, a page need not be
    the converted image pixel for pixel: on a host whose PDF writer
    stores colour pages with loss, the first band value 7 comes back
    as 6. *)
Lemma output_name_decides_format :
  Forall (fun path => readable Demo.disk path = true)
         ["output/images/0001.png"; "output/images/0002.png"] /\
  Main.images_to_pdf (host := Hosts.plain)
    ["output/images/0001.png"; "output/images/0002.png"]
    "output/result" Demo.disk
  = (Raise ValueError, Demo.disk) /\
  snd (Main.images_to_pdf (host := Hosts.plain)
         ["output/images/0001.png"; "output/images/0002.png"]
         "output/result" Demo.disk) !! "output/result" = None /\
  snd (Main.images_to_pdf (host := Hosts.plain)
         ["output/images/0001.png"] "output/result.pdf" Demo.disk)
    !! "output/result.pdf"
  <> Some (FPdf [convert_rgb Demo.grey]).
Proof.
  split; [repeat constructor|].
  split; [reflexivity|].
  split; [reflexivity|].
  vm_compute. discriminate.
Qed.

(** ** Loading the configuration *)

Lemma dict_get_absent {V} key (entries : list (string * V)) default :
  key ∉ entries.*1 -> dict_get key entries default = default.
Proof.
  induction entries as [|[k v] entries IH]; simpl; [reflexivity|].
  intros Hnot. apply not_elem_of_cons in Hnot as [Hk Hrest].
  destruct (String.eqb_spec k key) as [->|_]; [congruence|]. now apply IH.
Qed.

Lemma dict_get_present {V} key (before after : list (string * V)) v default :
  key ∉ before.*1 -> dict_get key (before ++ (key, v) :: after) default = v.
Proof.
  induction before as [|[k w] before IH]; simpl.
  - intros _. now rewrite String.eqb_refl.
  - intros Hnot. apply not_elem_of_cons in Hnot as [Hk Hrest].
    destruct (String.eqb_spec k key) as [->|_]; [congruence|]. now apply IH.
Qed.

(** C8.  [load_config] raises [FileNotFoundError] when there is no file
    at [configs/<name>.yaml].  When the file holds a mapping,
    [load_config] returns the value stored under [links], as it stands in
    the document (a mapping from names to URLs then yields its items in
    the order they were written), and an empty mapping when the document
    has no [links] key.  The disk is only read. *)
Theorem load_config_links (config_name : string) (fs : filesystem) :
  let config_path := path_join "configs" (config_name +:+ ".yaml") in
  (fs !! config_path = None ->
   SrcMain.load_config config_name fs = (Raise FileNotFoundError, fs)) /\
  (forall entries,
     fs !! config_path = Some (FYaml (YMap entries)) ->
     (forall before links after,
        entries = before ++ ("links", links) :: after ->
        "links" ∉ before.*1 ->
        SrcMain.load_config config_name fs = (Ok links, fs)) /\
     ("links" ∉ entries.*1 ->
      SrcMain.load_config config_name fs = (Ok (YMap []), fs) /\
      SrcMain.links_items (YMap []) = Some [])) /\
  (forall items,
     SrcMain.links_items (YMap ((fun l => (fst l, YStr (snd l))) <$> items))
     = Some items).
Proof.
  intros config_path. split; [|split].
  - intros Hnone. unfold SrcMain.load_config. fold config_path. now rewrite Hnone.
  - intros entries Hfile. split.
    + intros before links after -> Hfresh.
      unfold SrcMain.load_config. fold config_path. rewrite Hfile.
      now rewrite dict_get_present.
    + intros Habsent. split; [|reflexivity].
      unfold SrcMain.load_config. fold config_path. rewrite Hfile.
      now rewrite dict_get_absent.
  - intros items. simpl. induction items as [|[name url] items IH];
      [reflexivity|].
    rewrite fmap_cons. simpl. now rewrite IH.
Qed.

Lemma load_config_links_witness :
  Demo.disk !! "configs/missing.yaml" = None /\
  SrcMain.load_config "missing" Demo.disk = (Raise FileNotFoundError, Demo.disk) /\
  SrcMain.load_config "default" Demo.disk
  = (Ok (YMap [ ("doc_1", YStr "https://example.com/first");
                ("doc_2", YStr "https://example.com/second") ]), Demo.disk) /\
  SrcMain.load_config "bare" Demo.disk = (Ok (YMap []), Demo.disk).
Proof.
  assert (Hnone : Demo.disk !! "configs/missing.yaml" = None) by reflexivity.
  split; [exact Hnone|]. split; [|split].
  - exact (proj1 (load_config_links "missing" Demo.disk) Hnone).
  - refine (proj1 (proj1 (proj2 (load_config_links "default" Demo.disk)) _ _)
              [("title", YStr "books")] _ [] _ _).
    + reflexivity.
    + reflexivity.
    + apply (bool_decide_unpack _). vm_compute. reflexivity.
  - refine (proj1 (proj2 (proj1 (proj2 (load_config_links "bare" Demo.disk)) _ _) _)).
    + reflexivity.
    + apply (bool_decide_unpack _). vm_compute. reflexivity.
Defined.

(** ** C6: a page without sections *)

(** C6.  Let the processing of document [url] have come to a turn of its
    pagination loop (state [s]: the first page after loading, or a later
    one) where the content container holds no element whose id starts with
    [pageSection].  Then the loop is left at once, without an exception:
    nothing is captured, the list of images, the counter and the disk are
    as they were; and the run goes on with the documents after [url], from
    that state. *)
Theorem zero_sections_end_document {B E} `{!WebDriver B E}
    (name url : string) (rest : list (string * string))
    (fuel_doc fuel : nat) (s_doc s : state B E) (content : E) :
  Main.process_document url fuel_doc s_doc = Main.pagination_loop (S fuel) s ->
  find_element Main.content_locator (browser s) = Some content ->
  find_elements_in content Main.sections_locator (browser s) = [] ->
  let s_end := emit (EvFindAll content Main.sections_locator)
                 (emit (EvFind Main.content_locator) s) in
  Main.pagination_loop (S fuel) s = (Ok NoSections, s_end) /\
  all_images s_end = all_images s /\
  global_step s_end = global_step s /\
  files s_end = files s /\
  captures (log s_end) = captures (log s) /\
  Main.for_links ((name, url) :: rest) fuel_doc s_doc
  = Main.for_links rest fuel_doc s_end /\
  SrcMain.for_links ((name, url) :: rest) fuel_doc s_doc
  = SrcMain.for_links rest fuel_doc s_end.
Proof.
  intros Hdoc Hcontent Hnone s_end.
  pose proof (loop_no_sections fuel s content Hcontent Hnone) as Hloop.
  fold s_end in Hloop.
  assert (Hlinks : Main.for_links ((name, url) :: rest) fuel_doc s_doc
                   = Main.for_links rest fuel_doc s_end)
    by now rewrite for_links_cons, Hdoc, Hloop.
  split; [exact Hloop|].
  split; [reflexivity|]. split; [reflexivity|]. split; [reflexivity|].
  split; [|split; [exact Hlinks | now rewrite !for_links_same]].
  unfold s_end, emit. simpl. rewrite !captures_app. simpl.
  now rewrite !app_nil_r.
Qed.

Lemma zero_sections_end_document_witness :
  Main.for_links Demo.empty_then_second 1 Demo.start
  = Main.for_links [("doc_2", "https://example.com/second")] 1
      (emit (EvFindAll (Site.Container [Demo.toolbar]) Main.sections_locator)
         (emit (EvFind Main.content_locator)
            (Demo.opened "https://example.com/empty"))) /\
  fst (Main.for_links Demo.empty_then_second 1 Demo.start) = Ok tt.
Proof.
  split; [|reflexivity].
  refine (proj1 (proj2 (proj2 (proj2 (proj2 (proj2
    (zero_sections_end_document "doc_0" "https://example.com/empty"
       [("doc_2", "https://example.com/second")] 1 0 Demo.start
       (Demo.opened "https://example.com/empty")
       (Site.Container [Demo.toolbar]) _ _ _))))))).
  - reflexivity.
  - reflexivity.
  - reflexivity.
Defined.

(** ** C7: the next-page control *)

(** C7.  On a page with sections, once they are captured the loop looks
    up the control [page_next] and reads its [class].  When the class
    contains [disabled], the loop is left at once (no click).  Otherwise
    the control is clicked, the content container is waited for with the
    timeout [WAIT] and the script pauses for one second, exactly as after
    loading the document, and the loop takes its next turn from there (a
    wait that times out raises instead).  And whenever a loop returns, the
    page it stopped on either has no sections or has the control
    disabled. *)
Theorem next_control_decides {B E} `{!WebDriver B E}
    (fuel : nat) (s : state B E) (content section : E) (rest : list E)
    (next_btn : E) (classes : string) :
  find_element Main.content_locator (browser s) = Some content ->
  find_elements_in content Main.sections_locator (browser s) = section :: rest ->
  find_element Main.next_locator (browser s) = Some next_btn ->
  get_attribute next_btn "class" (browser s) = Some classes ->
  let s_next := next_checked next_btn (page_captured content (section :: rest) s) in
  let s_click := clicked next_btn s_next in
  (* the lookups, in order, and nothing else *)
  log s_next
  = log s ++ EvFind (CSS_SELECTOR, "div.content")
          :: EvFindAll content Main.sections_locator
          :: capture_events (global_step s) (section :: rest)
          ++ [EvFind (ID, "page_next"); EvGetAttribute next_btn "class"] /\
  (* disabled: leave; enabled: click, wait, pause, next turn *)
  (if str_in "disabled" classes
   then Main.pagination_loop (S fuel) s = (Ok NextDisabled, s_next)
   else
     match until_present 10 (CSS_SELECTOR, "div.content") (browser s_click) with
     | None =>
         Main.pagination_loop (S fuel) s
         = (Raise TimeoutException,
            emit (EvUntil 10 (CSS_SELECTOR, "div.content")) s_click)
     | Some b =>
         Main.pagination_loop (S fuel) s
         = Main.pagination_loop fuel (settled b s_click) /\
         log (settled b s_click)
         = log s_next ++ [EvClick next_btn;
                          EvUntil 10 (CSS_SELECTOR, "div.content");
                          EvSleep 1]
     end) /\
  (* the same wait and pause follow the loading of a document *)
  (forall url s_doc,
     Main.process_document url fuel s_doc
     = match until_present 10 (CSS_SELECTOR, "div.content")
               (browser (loaded url s_doc)) with
       | None =>
           (Raise TimeoutException,
            emit (EvUntil 10 (CSS_SELECTOR, "div.content")) (loaded url s_doc))
       | Some b => Main.pagination_loop fuel (settled b (loaded url s_doc))
       end) /\
  (* a loop that returns has stopped for one of the two reasons *)
  (forall r s', Main.pagination_loop (S fuel) s = (Ok r, s') ->
                stopped_at r (browser s')) /\
  SrcMain.pagination_loop (S fuel) s = Main.pagination_loop (S fuel) s.
Proof.
  intros Hcontent Hsections Hnext Hclass s_next s_click.
  pose proof (loop_next fuel s content section rest next_btn
                Hcontent Hsections Hnext) as Hrun.
  cbv zeta in Hrun. rewrite Hclass in Hrun. fold s_next s_click in Hrun.
  split.
  { unfold s_next, next_checked, page_captured, captured, emit. simpl.
    rewrite <- !app_assoc. reflexivity. }
  split.
  { destruct (str_in "disabled" classes); [exact Hrun|].
    change Main.WAIT with 10 in Hrun.
    change Main.content_locator with (CSS_SELECTOR, "div.content") in Hrun.
    destruct (until_present 10 _ (browser s_click)) as [b|]; [|exact Hrun].
    split; [exact Hrun|].
    unfold settled, s_click, clicked, emit, on_browser. simpl.
    rewrite <- !app_assoc. reflexivity. }
  split; [intros url s_doc; exact (process_document_run url fuel s_doc)|].
  split; [apply loop_returns_stopped|].
  now rewrite pagination_loop_same.
Qed.

Lemma next_control_decides_witness :
  Main.pagination_loop 1 (Demo.opened "https://example.com/second")
  = (Ok NextDisabled,
     next_checked (Site.Node Demo.next_off)
       (page_captured (Site.Container [Demo.sec "1"]) [Site.Node (Demo.sec "1")]
          (Demo.opened "https://example.com/second"))).
Proof.
  refine (proj1 (proj2
    (next_control_decides 0 (Demo.opened "https://example.com/second")
       (Site.Container [Demo.sec "1"]) (Site.Node (Demo.sec "1")) []
       (Site.Node Demo.next_off) "btn disabled" _ _ _ _))).
  - reflexivity.
  - reflexivity.
  - reflexivity.
  - reflexivity.
Defined.

(** ** What a run logs, and where it fails *)

Section Run.
Context {B E : Type} `{!WebDriver B E}.
Implicit Types (s : state B E) (P : event E -> Prop).

Lemma logs_ret {A} P (a : A) : logs P (ret (S:=state B E) a).
Proof. intros s. exists []. simpl. now rewrite app_nil_r. Qed.

Lemma logs_raise {A} P e : logs P (@raise (state B E) A e).
Proof. intros s. exists []. simpl. now rewrite app_nil_r. Qed.

Lemma logs_spin {A} P : logs P (@spin (state B E) A).
Proof. intros s. exists []. simpl. now rewrite app_nil_r. Qed.

Lemma logs_bind {A A'} P (m : M (state B E) A) (k : A -> M (state B E) A') :
  logs P m -> (forall a, logs P (k a)) -> logs P (bind m k).
Proof.
  intros Hm Hk s. unfold bind. destruct (Hm s) as (evs & Hlog & Hall).
  destruct (m s) as [[a|e|] s1]; simpl in *; eauto.
  destruct (Hk a s1) as (evs' & Hlog' & Hall').
  exists (evs ++ evs'). rewrite Hlog', Hlog, app_assoc.
  split; [reflexivity | now apply Forall_app].
Qed.

Lemma logs_silent {A} P (m : M (state B E) A) :
  (forall s, log (snd (m s)) = log s) -> logs P m.
Proof. intros Hm s. exists []. now rewrite Hm, app_nil_r. Qed.

Lemma logs_one {A} P (m : M (state B E) A) ev :
  P ev -> (forall s, log (snd (m s)) = log s ++ [ev]) -> logs P m.
Proof. intros Hev Hm s. exists [ev]. rewrite Hm. auto. Qed.

Lemma logs_wait P timeout loc :
  P (EvUntil timeout loc) -> logs P (wait_until timeout loc).
Proof.
  intros Hev. apply (logs_one _ _ _ Hev). intros s. unfold wait_until.
  now destruct (until_present timeout loc (browser s)).
Qed.

Lemma logs_find P loc : P (EvFind loc) -> logs P (driver_find_element loc).
Proof.
  intros Hev. apply (logs_one _ _ _ Hev). intros s. unfold driver_find_element.
  now destruct (find_element loc (browser s)).
Qed.

Lemma logs_capture P section :
  (forall path, P (EvScreenshot section path)) ->
  P (EvGetAttribute section "id") ->
  logs P (Main.capture section).
Proof.
  intros Hshot Hid s. rewrite capture_run. eexists. split; [reflexivity|].
  simpl. auto.
Qed.

Lemma logs_loop fuel :
  logs (fun ev => is_session ev = false) (Main.pagination_loop fuel).
Proof.
  induction fuel as [|fuel IH]; simpl; [apply logs_spin|].
  apply logs_bind; [now apply logs_find | intros content].
  apply logs_bind; [now apply (logs_one _ _ (EvFindAll content Main.sections_locator))
                   | intros sections].
  destruct sections as [|section rest]; [apply logs_ret|].
  apply logs_bind.
  { generalize (section :: rest). clear. intros sections.
    induction sections as [|section rest IH]; simpl; [apply logs_ret|].
    apply logs_bind; [now apply logs_capture | intros _; exact IH]. }
  intros _.
  apply logs_bind; [now apply logs_find | intros next_btn].
  apply logs_bind; [now apply (logs_one _ _ (EvGetAttribute next_btn "class"))
                   | intros [classes|]]; [|apply logs_raise].
  destruct (str_in "disabled" classes); [apply logs_ret|].
  apply logs_bind; [now apply (logs_one _ _ (EvClick next_btn)) | intros _].
  apply logs_bind; [now apply logs_wait | intros _].
  apply logs_bind; [now apply (logs_one _ _ (EvSleep 1)) | intros _].
  exact IH.
Qed.

Lemma logs_for_links links fuel :
  logs (fun ev => is_session ev = false) (Main.for_links links fuel).
Proof.
  induction links as [|[name url] rest IH]; simpl; [apply logs_ret|].
  apply logs_bind; [|intros _; exact IH].
  unfold Main.process_document.
  apply logs_bind; [now apply (logs_one _ _ (EvGet url)) | intros _].
  apply logs_bind; [now apply logs_wait | intros _].
  apply logs_bind; [now apply (logs_one _ _ (EvSleep 1)) | intros _].
  apply logs_loop.
Qed.

Lemma logs_collect_images links fuel :
  logs (fun ev => is_session ev = false) (Main.collect_images links fuel).
Proof.
  unfold Main.collect_images.
  apply logs_bind; [now apply (logs_one _ _ (EvMakedirs Main.IMAGES_DIR)) | intros _].
  apply logs_bind; [now apply logs_silent | intros _].
  apply logs_bind; [apply logs_for_links | intros _; now apply logs_silent].
Qed.


(** [try: body finally: driver.quit()]: unless the body runs forever,
    the session is released once, after everything the body did, and the
    outcome of the body is the outcome of the whole. *)
Lemma finally_quit {A} (body : M (state B E) A) s :
  fst (body s) <> OutOfFuel ->
  try_finally body driver_quit s = (fst (body s), released (snd (body s))).
Proof.
  unfold try_finally. destruct (body s) as [[a|e|] s1]; simpl;
    [reflexivity | reflexivity | congruence].
Qed.


(** *** Where [collect_images] fails *)










End Run.

(** ** The [try] statement and [driver.quit()] *)

Section Release.
Context {B E : Type} `{!WebDriver B E} {host : Host}.
Implicit Types (s : state B E).


End Release.

Lemma load_config_reads config fs : snd (SrcMain.load_config config fs) = fs.
Proof.
  unfold SrcMain.load_config.
  destruct (fs !! _) as [[| |[]| | | |]|]; reflexivity.
Qed.

Lemma src_main_run {B E} `{!WebDriver B E} {host : Host} config pdf_filename fuel (s : state B E) :
  SrcMain.main config pdf_filename fuel s
  = match fst (SrcMain.load_config config (files s)) with
    | Ok LINKS =>
        try_finally (SrcMain.try_block LINKS pdf_filename fuel) driver_quit (begun s)
    | Raise e => (Raise e, s)
    | OutOfFuel => (OutOfFuel, s)
    end.
Proof.
  unfold SrcMain.main. unfold bind at 1. unfold on_files.
  pose proof (load_config_reads config (files s)) as Hfs.
  destruct (SrcMain.load_config config (files s)) as [r fs]. simpl in Hfs.
  subst fs. destruct s as [b fs l imgs step]. simpl.
  destruct r; reflexivity.
Qed.

(** ** Start-up: the directories, the driver, the window *)

Lemma make_dir_list_lookup dirs : forall fs p,
  foldl make_dir fs dirs !! p = fs !! p \/
  (fs !! p = None /\ p ∈ dirs /\ foldl make_dir fs dirs !! p = Some FDir).
Proof.
  induction dirs as [|d dirs IH]; intros fs p; simpl; [now left|].
  destruct (IH (make_dir fs d) p) as [Hsame|(Hnone & Hin & Hdir)].
  - rewrite Hsame. unfold make_dir. destruct (fs !! d) eqn:Hd; [now left|].
    destruct (decide (p = d)) as [->|Hne].
    + right. rewrite lookup_insert_eq.
      split; [exact Hd|]. split; [left|reflexivity].
    + left. now rewrite lookup_insert_ne.
  - right. split; [|split; [now right | exact Hdir]].
    unfold make_dir in Hnone. destruct (fs !! d) eqn:Hd; [exact Hnone|].
    destruct (decide (p = d)) as [->|Hne]; [exact Hd|].
    now rewrite lookup_insert_ne in Hnone.
Qed.

(** [os.makedirs] makes directories where there was nothing, and touches
    nothing else. *)
Lemma make_dirs_lookup path fs p :
  make_dirs path fs !! p = fs !! p \/
  (fs !! p = None /\ p ∈ dirs_of path /\ make_dirs path fs !! p = Some FDir).
Proof. apply make_dir_list_lookup. Qed.



Lemma make_each_made {B} {startup : Startup B} dirs : forall fs,
  fst (make_each dirs fs) = None ->
  snd (make_each dirs fs) = foldl make_dir fs dirs.
Proof.
  induction dirs as [|d dirs IH]; intros fs; simpl; [reflexivity|].
  unfold make_dir at 2.
  destruct (fs !! d) as [[]|] eqn:Hd; simpl; try discriminate.
  - apply IH.
  - destruct (mkdir_raises d fs); simpl; [discriminate|]. apply IH.
Qed.

(** When [os.makedirs] returns, every directory on the way is there. *)
Lemma makedirs_leaves_made {B} {startup : Startup B} path fs :
  makedirs_raises path fs = None -> makedirs_leaves path fs = make_dirs path fs.
Proof. apply make_each_made. Qed.

Lemma make_dirs_other path fs p :
  p ∉ dirs_of path -> make_dirs path fs !! p = fs !! p.
Proof.
  intros Hp. destruct (make_dirs_lookup path fs p) as [H|(_ & Hin & _)];
    [exact H | contradiction].
Qed.

Lemma dirs_of_images : dirs_of Main.IMAGES_DIR = ["output"; "output/images"].
Proof. reflexivity. Qed.


Lemma img_path_no_dir n : img_path n ∉ dirs_of Main.IMAGES_DIR.
Proof.
  rewrite dirs_of_images, img_path_eq. intros Hin.
  apply elem_of_cons in Hin as [Heq|Hin]; [discriminate|].
  apply elem_of_cons in Hin as [Heq|Hin]; [discriminate|].
  inversion Hin.
Qed.

Section Launch.
Context {B E : Type} `{!WebDriver B E} {host : Host} {startup : Startup B}.
Implicit Types (s : state B E).

Lemma os_makedirs_made path s :
  makedirs_raises path (files s) = None ->
  os_makedirs path s
  = (Ok tt, with_files (make_dirs path) (emit (EvMakedirs path) s)).
Proof.
  intros Hok. unfold os_makedirs. rewrite Hok. unfold with_files. simpl.
  now rewrite (makedirs_leaves_made _ _ Hok).
Qed.



(** Once the directory is made, [collect_images] goes on as it does on a
    disk that has the directory. *)
Lemma collect_images_made links fuel s :
  makedirs_raises Main.IMAGES_DIR (files s) = None ->
  MainRun.collect_images links fuel s
  = Main.collect_images links fuel (with_files (make_dirs Main.IMAGES_DIR) s).
Proof.
  intros Hok. unfold MainRun.collect_images, Main.collect_images.
  unfold bind at 1. unfold bind at 3. rewrite (os_makedirs_made _ _ Hok).
  reflexivity.
Qed.


Lemma collect_images_run_same links fuel :
  SrcMainRun.collect_images (B:=B) links fuel = MainRun.collect_images links fuel.
Proof.
  unfold SrcMainRun.collect_images, MainRun.collect_images.
  now rewrite for_links_same.
Qed.

Lemma try_block_run_same (items : list (string * string)) LINKS pdf_filename fuel s :
  SrcMain.links_items LINKS = Some items ->
  SrcMainRun.try_block LINKS pdf_filename fuel s
  = (let* images := MainRun.collect_images items fuel in
     on_files (Main.images_to_pdf images (path_join "output" pdf_filename)))%py s.
Proof.
  intros Hitems. unfold SrcMainRun.try_block. rewrite Hitems.
  rewrite collect_images_run_same. unfold bind.
  destruct (MainRun.collect_images items fuel s) as [[images|e|] s1];
    reflexivity.
Qed.




(** Start-up in [main.py]: the directory, the driver, the session. *)
Lemma main_run_created username profile_name pdf_filename fuel s driver_path :
  makedirs_raises Main.BASE_DIR (files s) = None ->
  install = inr driver_path ->
  chrome_raises driver_path (MainRun.arguments username profile_name) = None ->
  MainRun.main username profile_name pdf_filename fuel s
  = bind window_maximize
      (fun _ => try_finally (MainRun.try_block pdf_filename fuel) driver_quit)
      (emit EvCreateDriver
         (with_files (make_dirs Main.BASE_DIR) (emit (EvMakedirs Main.BASE_DIR) s))).
Proof.
  intros Hdir Hinstall Hchrome. unfold MainRun.main.
  unfold bind at 1. rewrite (os_makedirs_made _ _ Hdir).
  unfold bind at 1. unfold MainRun.create_driver, bind at 1.
  unfold driver_manager_install. rewrite Hinstall.
  unfold webdriver_chrome. rewrite Hchrome. reflexivity.
Qed.

Lemma src_main_run_created username profile_name config pdf_filename fuel s
    driver_path LINKS :
  fst (SrcMain.load_config config (files s)) = Ok LINKS ->
  makedirs_raises Main.BASE_DIR (files s) = None ->
  install = inr driver_path ->
  chrome_raises (SrcDriver.driver_binary driver_path)
                (SrcMainRun.arguments username profile_name) = None ->
  SrcMainRun.main username profile_name config pdf_filename fuel s
  = bind window_maximize
      (fun _ => try_finally (SrcMainRun.try_block LINKS pdf_filename fuel) driver_quit)
      (emit EvCreateDriver
         (with_files (make_dirs Main.BASE_DIR) (emit (EvMakedirs Main.BASE_DIR) s))).
Proof.
  intros Hconfig Hdir Hinstall Hchrome. unfold SrcMainRun.main.
  unfold bind at 1. unfold on_files.
  pose proof (load_config_reads config (files s)) as Hfs.
  destruct (SrcMain.load_config config (files s)) as [r fs]. simpl in Hfs, Hconfig.
  subst fs r.
  replace (State (browser s) (files s) (log s) (all_images s) (global_step s))
    with s by now destruct s.
  unfold bind at 1. rewrite (os_makedirs_made SrcMain.BASE_DIR s Hdir).
  unfold bind at 1. unfold SrcMainRun.create_driver, bind at 1.
  unfold driver_manager_install. rewrite Hinstall.
  unfold webdriver_chrome. rewrite Hchrome. reflexivity.
Qed.


Lemma maximize_then_try {A} (body : M (state B E) A) s :
  maximize_raises (browser s) = None ->
  bind window_maximize (fun _ => try_finally body driver_quit) s
  = try_finally body driver_quit (on_browser maximize_window (emit EvMaximize s)).
Proof. intros Hok. unfold bind, window_maximize. now rewrite Hok. Qed.

Lemma maximize_refused {A} (body : M (state B E) A) s e :
  maximize_raises (browser s) = Some e ->
  bind window_maximize (fun _ => try_finally body driver_quit) s
  = (Raise e, emit EvMaximize s).
Proof. intros Hno. unfold bind, window_maximize. now rewrite Hno. Qed.


Lemma src_main_run_started username profile_name config pdf_filename fuel s LINKS :
  fst (SrcMain.load_config config (files s)) = Ok LINKS ->
  starts_up s SrcDriver.driver_binary
            (SrcMainRun.arguments username profile_name) ->
  SrcMainRun.main username profile_name config pdf_filename fuel s
  = try_finally (SrcMainRun.try_block LINKS pdf_filename fuel) driver_quit (started s).
Proof.
  intros Hconfig (Hdir & (driver_path & Hinstall & Hchrome) & Hmax).
  rewrite (src_main_run_created _ _ _ _ _ _ _ _ Hconfig Hdir Hinstall Hchrome).
  now rewrite maximize_then_try.
Qed.

End Launch.

(** ** C9: the session that is not released *)

(** C9, where the program departs from it.  [driver.maximize_window()]
    is called once the session exists and before the [try] statement is
    entered.  When the browser refuses it, in either entry point, the
    exception leaves [main] at once: the log of the run ends with that
    call, [driver.quit()] is not called, and the browser is left as it
    was.  The session has been created and is not released. *)
Theorem maximize_failure_leaks_session
    {B E} `{!WebDriver B E} {host : Host} {startup : Startup B}
    (username profile_name config pdf_filename : string) (fuel : nat)
    (s : state B E) (driver_path : string) (e : exn) :
  makedirs_raises "output" (files s) = None ->
  install = inr driver_path ->
  maximize_raises (browser s) = Some e ->
  log (maximize_failed s)
  = log s ++ [EvMakedirs "output"; EvCreateDriver; EvMaximize] /\
  browser (maximize_failed s) = browser s /\
  (EvQuit ∉ log s -> session_open (log (maximize_failed s))) /\
  (chrome_raises driver_path (MainRun.arguments username profile_name) = None ->
   MainRun.main username profile_name pdf_filename fuel s
   = (Raise e, maximize_failed s)) /\
  (forall LINKS,
     fst (SrcMain.load_config config (files s)) = Ok LINKS ->
     chrome_raises (SrcDriver.driver_binary driver_path)
                   (SrcMainRun.arguments username profile_name) = None ->
     SrcMainRun.main username profile_name config pdf_filename fuel s
     = (Raise e, maximize_failed s)).
Proof.
  intros Hdir Hinstall Hmax.
  split; [simpl; now rewrite <- !app_assoc|].
  split; [reflexivity|].
  split.
  { intros Hquit. unfold session_open. simpl. split.
    - rewrite !elem_of_app. left. right. apply list_elem_of_singleton. reflexivity.
    - rewrite !elem_of_app. intros [[[Hin|Hin]|Hin]|Hin]; [contradiction|..];
        apply list_elem_of_singleton in Hin; discriminate. }
  split.
  - intros Hchrome.
    rewrite (main_run_created _ _ _ _ _ _ Hdir Hinstall Hchrome).
    now apply maximize_refused.
  - intros LINKS Hconfig Hchrome.
    rewrite (src_main_run_created _ _ _ _ _ _ _ _ Hconfig Hdir Hinstall Hchrome).
    now apply maximize_refused.
Qed.

Lemma maximize_failure_leaks_session_witness :
  maximize_raises (Startup := Hosts.stuck_window) (browser Demo.start)
  = Some WebDriverException /\
  fst (MainRun.main (host := Hosts.plain) (startup := Hosts.stuck_window)
         "reader" "Default" "result.pdf" 2 Demo.start)
  = Raise WebDriverException /\
  session_open
    (log (snd (MainRun.main (host := Hosts.plain) (startup := Hosts.stuck_window)
                 "reader" "Default" "result.pdf" 2 Demo.start))).
Proof.
  destruct (maximize_failure_leaks_session
              (host := Hosts.plain) (startup := Hosts.stuck_window)
              "reader" "Default" "default" "result.pdf" 2 Demo.start
              (Inputs.driver_dir +:+ "chromedriver") WebDriverException
              eq_refl eq_refl eq_refl)
    as (_ & _ & Hopen & Hmain & _).
  split; [reflexivity|].
  rewrite (Hmain eq_refl). split; [reflexivity|].
  apply Hopen. simpl. apply not_elem_of_nil.
Defined.

(** ** C10: the two entry points *)

(** C10.  For every browser session, every document mapping and every
    state of the run, [collect_images] of [main.py] and of [src/main.py]
    have the same outcome, return the same list of paths and leave the
    same state (the same captures, files and log); and the two
    [images_to_pdf] have the same outcome and leave the same disk on every
    list of paths. *)
Theorem entry_points_agree {B E} `{!WebDriver B E} {host : Host}
    (links : list (string * string)) (fuel : nat) (s : state B E)
    (images : list string) (pdf_path : string) (fs : filesystem) :
  SrcMain.collect_images links fuel s = Main.collect_images links fuel s /\
  captures (log (snd (SrcMain.collect_images links fuel s)))
  = captures (log (snd (Main.collect_images links fuel s))) /\
  SrcMain.images_to_pdf images pdf_path fs = Main.images_to_pdf images pdf_path fs.
Proof.
  rewrite collect_images_same. split; [reflexivity|]. split; [reflexivity|].
  apply images_to_pdf_same.
Qed.

(** ** Beyond the claims: the captures on disk *)

Lemma append_cancel_r (x y t : string) : x +:+ t = y +:+ t -> x = y.
Proof.
  revert y. induction x as [|c x IH]; intros [|d y] Heq.
  - reflexivity.
  - apply (f_equal String.length) in Heq.
    rewrite !append_length in Heq. simpl in Heq. lia.
  - apply (f_equal String.length) in Heq.
    rewrite !append_length in Heq. simpl in Heq. lia.
  - change (String c (x +:+ t) = String d (y +:+ t)) in Heq.
    injection Heq as -> Heq. f_equal. now apply IH.
Qed.

Lemma append_cancel_l (t x y : string) : t +:+ x = t +:+ y -> x = y.
Proof.
  induction t as [|c t IH]; intros Heq; [exact Heq|].
  change (String c (t +:+ x) = String c (t +:+ y)) in Heq.
  injection Heq as Heq. now apply IH.
Qed.

Lemma img_path_inj a b : img_path a = img_path b -> a = b.
Proof.
  rewrite !img_path_eq. intros Heq.
  apply append_cancel_l, append_cancel_r in Heq.
  pose proof (int_of_str_format_04 a) as Ha.
  rewrite Heq, int_of_str_format_04 in Ha. congruence.
Qed.

Lemma img_paths_nodup n k : NoDup (img_path <$> seq n k).
Proof.
  apply NoDup_fmap_2; [intros a b; apply img_path_inj | apply NoDup_seq].
Qed.

Section Disk.
Context {B E : Type} `{!WebDriver B E}.
Implicit Types (s : state B E) (P : state B E -> Prop).

(** An invariant that every call but a screenshot keeps, and that every
    capture keeps, is kept by the loops. *)
Lemma keeps_for_sections P sections :
  (forall section, keeps P (Main.capture section)) ->
  keeps P (Main.for_sections sections).
Proof.
  intros Hcap. induction sections as [|section rest IH]; simpl.
  - apply keeps_ret.
  - apply keeps_bind; [apply Hcap | intros _; exact IH].
Qed.

Lemma keeps_wait P timeout loc :
  (forall s ev, captures [ev] = [] -> P s -> P (emit ev s)) ->
  (forall s f, P s -> P (on_browser f s)) ->
  keeps P (wait_until timeout loc).
Proof.
  intros Hemit Hbrowser s Hs. unfold wait_until.
  destruct (until_present timeout loc (browser s)); simpl.
  - apply Hbrowser. now apply Hemit.
  - now apply Hemit.
Qed.

Lemma keeps_find P loc :
  (forall s ev, captures [ev] = [] -> P s -> P (emit ev s)) ->
  keeps P (driver_find_element loc).
Proof.
  intros Hemit s Hs. unfold driver_find_element.
  destruct (find_element loc (browser s)); simpl; now apply Hemit.
Qed.

Lemma keeps_loop P fuel :
  (forall s ev, captures [ev] = [] -> P s -> P (emit ev s)) ->
  (forall s f, P s -> P (on_browser f s)) ->
  (forall section, keeps P (Main.capture section)) ->
  keeps P (Main.pagination_loop fuel).
Proof.
  intros Hemit Hbrowser Hcap.
  induction fuel as [|fuel IH]; simpl; [apply keeps_spin|].
  apply keeps_bind; [now apply keeps_find | intros content].
  apply keeps_bind; [intros s Hs; now apply Hemit | intros sections].
  destruct sections as [|section rest]; [apply keeps_ret|].
  apply keeps_bind; [now apply keeps_for_sections | intros _].
  apply keeps_bind; [now apply keeps_find | intros next_btn].
  apply keeps_bind; [intros s Hs; now apply Hemit | intros [classes|]];
    [|apply keeps_raise].
  destruct (str_in "disabled" classes); [apply keeps_ret|].
  apply keeps_bind; [intros s Hs; apply Hbrowser; now apply Hemit | intros _].
  apply keeps_bind; [now apply keeps_wait | intros _].
  apply keeps_bind; [intros s Hs; apply Hbrowser; now apply Hemit | intros _].
  exact IH.
Qed.

Lemma keeps_links P links fuel :
  (forall s ev, captures [ev] = [] -> P s -> P (emit ev s)) ->
  (forall s f, P s -> P (on_browser f s)) ->
  (forall section, keeps P (Main.capture section)) ->
  keeps P (Main.for_links links fuel).
Proof.
  intros Hemit Hbrowser Hcap.
  induction links as [|[name url] rest IH]; simpl; [apply keeps_ret|].
  apply keeps_bind; [|intros _; exact IH].
  unfold Main.process_document.
  apply keeps_bind; [intros s Hs; apply Hbrowser; now apply Hemit | intros _].
  apply keeps_bind; [now apply keeps_wait | intros _].
  apply keeps_bind; [intros s Hs; apply Hbrowser; now apply Hemit | intros _].
  now apply keeps_loop.
Qed.

(** What [collect_images] leaves is what its loop over the documents
    leaves, started from fresh locals. *)
Lemma collect_images_state links fuel s :
  snd (Main.collect_images links fuel s)
  = snd (Main.for_links links fuel
           (Main.init_locals (emit (EvMakedirs Main.IMAGES_DIR) s))).
Proof.
  unfold Main.collect_images, makedirs. unfold bind at 1. unfold bind at 1.
  unfold bind.
  destruct (Main.for_links links fuel _) as [[[]|e|] s2]; reflexivity.
Qed.







End Disk.

Section DiskRun.
Context {B E : Type} `{!WebDriver B E} {startup : Startup B}.
Implicit Types (s : state B E).



End DiskRun.

(** X1.  No two captures of a run go to the same path, whatever the
    browser does and however the run ends: a capture is never overwritten
    by a later one.  Distinct sequence numbers give distinct paths. *)
Theorem captures_never_overwritten {B E} `{!WebDriver B E}
    (links : list (string * string)) (fuel : nat) (s : state B E) :
  let run := Main.collect_images links fuel s in
  (exists evs,
     log (snd run) = log s ++ evs /\
     NoDup (snd <$> captures evs)) /\
  match fst run with
  | Ok images => NoDup images
  | _ => True
  end /\
  (forall a b, img_path a = img_path b -> a = b).
Proof.
  intros run.
  destruct (collect_images_numbered links fuel s)
    as (evs & Hlog & Himgs & Hseq & Hstep). fold run in Hlog, Himgs, Hseq, Hstep.
  assert (Hnodup : NoDup (all_images (snd run)))
    by (rewrite Hseq; apply img_paths_nodup).
  split; [|split; [|exact img_path_inj]].
  - exists (EvMakedirs Main.IMAGES_DIR :: evs).
    split; [now rewrite Hlog, <- app_assoc|]. simpl. now rewrite <- Himgs.
  - destruct (fst run) as [images| |] eqn:Hrun; [|exact I|exact I].
    now rewrite (collect_images_returns links fuel s images Hrun).
Qed.





(** ** Beyond the claims: from the captures to the PDF *)

Lemma readable_images images fs :
  forallb (readable fs) images = true ->
  exists ims, Forall2 (fun path im => fs !! path = Some (FImage im)) images ims.
Proof.
  induction images as [|path images IH]; simpl.
  - intros _. exists []. constructor.
  - intros Hall. apply andb_prop in Hall as [Hpath Hrest].
    destruct (IH Hrest) as [ims Hims].
    destruct (readable_opens _ _ Hpath) as [im Him].
    exists (im :: ims). now constructor.
Qed.

(** The state after the PDF has been written to [pdf_path]. *)
Lemma on_files_saved {B E} `{!WebDriver B E} {host : Host}
    images pdf_path (s : state B E) ims :
  writable_pdf pdf_path ->
  images <> [] ->
  Forall2 (fun path im => files s !! path = Some (FImage im)) images ims ->
  on_files (Main.images_to_pdf images pdf_path) s
  = (Ok tt,
     State (browser s)
           (<[pdf_path := FPdf (pdf_page <$> (convert_rgb <$> ims))]> (files s))
           (log s) (all_images s) (global_step s)).
Proof.
  intros [Hext Hopen] Hne Hims. unfold on_files.
  rewrite (images_to_pdf_writes _ _ _ _ Hne Hims Hext), Hopen. reflexivity.
Qed.




(** ** Beyond the claims: a whole run on a paged site *)

Section SiteDisk.
Import Site.
Implicit Types (s : state window handle).

Lemma write_captures_app a c fs :
  write_captures (a ++ c) fs = write_captures c (write_captures a fs).
Proof.
  revert fs. induction a as [|[h path] a IH]; intros fs; simpl; [reflexivity|].
  apply IH.
Qed.

Lemma write_captures_other caps fs path :
  path ∉ caps.*2 -> write_captures caps fs !! path = fs !! path.
Proof.
  revert fs. induction caps as [|[h p] caps IH]; intros fs Hpath; simpl;
    [reflexivity|].
  simpl in Hpath. apply not_elem_of_cons in Hpath as [Hne Hrest].
  rewrite IH by exact Hrest. now rewrite lookup_insert_ne.
Qed.

Lemma write_captures_lookup hs : forall paths fs,
  NoDup paths -> length hs = length paths ->
  Forall2 (fun path im => write_captures (zip hs paths) fs !! path = Some (FImage im))
          paths (site_png <$> hs).
Proof.
  induction hs as [|h hs IH]; intros [|path paths] fs Hnodup Hlen;
    simpl in Hlen; try discriminate; [constructor|].
  apply NoDup_cons in Hnodup as [Hfresh Hnodup].
  injection Hlen as Hlen. simpl. constructor.
  - rewrite write_captures_other; [apply lookup_insert_eq|].
    rewrite snd_zip by lia. exact Hfresh.
  - now apply IH.
Qed.

Lemma keeps_site_stored_capture base fs0 section :
  keeps (site_stored base fs0) (Main.capture section).
Proof.
  intros s (evs & Hlog & Hfiles). rewrite capture_run.
  exists (evs ++ capture_events (global_step s) [section]). simpl.
  split; [now rewrite Hlog, app_assoc|].
  rewrite captures_app, write_captures_app, <- Hfiles. reflexivity.
Qed.

Lemma collect_images_site_stored links fuel s :
  site_stored (log s ++ [EvMakedirs Main.IMAGES_DIR]) (files s)
              (snd (Main.collect_images links fuel s)).
Proof.
  rewrite collect_images_state. apply keeps_links.
  - intros s1 ev Hev (evs & Hlog & Hfiles). exists (evs ++ [ev]). simpl.
    split; [now rewrite Hlog, app_assoc|].
    now rewrite captures_app, Hev, app_nil_r.
  - intros s1 f Hs1. exact Hs1.
  - apply keeps_site_stored_capture.
  - exists []. simpl. now rewrite app_nil_r.
Qed.

(** On a walkable site [collect_images] returns, and what it leaves on
    disk is what was there, with the screenshot of every section written
    to the path of its number. *)
Lemma site_collect_images links fuel s :
  walkable (site (browser s)) links fuel ->
  let sections := run_sections (site (browser s)) links in
  let paths := img_path <$> seq 1 (length sections) in
  exists s1,
    Main.collect_images links fuel s = (Ok paths, s1) /\
    files s1 = write_captures (zip (Node <$> sections) paths) (files s).
Proof.
  intros Hwalk sections paths.
  pose proof (collect_images_site_stored links fuel s) as Hstored.
  revert Hstored.
  unfold Main.collect_images, makedirs.
  unfold bind at 1 2. unfold bind at 1 2. unfold bind.
  set (s0 := Main.init_locals _).
  destruct (site_links links fuel s0 Hwalk)
    as (s1 & Hrun & _ & evs & Hlog & Hcap & Himgs & _).
  rewrite Hrun. simpl. intros (evs' & Hlog' & Hfiles).
  change (Site.site (browser s0)) with (Site.site (browser s)) in Hcap, Himgs.
  change (global_step s0) with 1 in Hcap, Himgs.
  change (all_images s0) with (@nil string) in Himgs.
  change (log s0) with (log s ++ [EvMakedirs (E:=handle) Main.IMAGES_DIR]) in Hlog.
  fold sections in Hcap, Himgs. fold paths in Hcap, Himgs.
  exists s1. split; [now rewrite Himgs|].
  rewrite Hlog in Hlog'. apply app_inv_head in Hlog'. subst evs'.
  now rewrite Hfiles, Hcap.
Qed.

End SiteDisk.

(** X5.  A whole run of [src/main.py] on a paged site, from the
    configuration to the PDF.  When start-up succeeds, the configuration
    names documents that can each be walked to their end and that have at
    least one section between them, and the output name ends in [.pdf]
    and can be opened for writing, [main] returns; the PDF at
    [output/<pdf_filename>] has one page per section of every page of
    every document, in document, page and section order, each page being
    the screenshot of its section, converted to three-band colour, as the
    PDF writer stores it; and the last call of the run is
    [driver.quit()].  (On the paged site every screenshot is written.) *)
Theorem site_run_to_pdf {host : Host} {startup : Startup Site.window}
    (username profile_name config pdf_filename : string) (fuel : nat)
    (s : state Site.window Site.handle)
    (LINKS : yaml) (items : list (string * string)) :
  fst (SrcMain.load_config config (files s)) = Ok LINKS ->
  SrcMain.links_items LINKS = Some items ->
  walkable (Site.site (browser s)) items fuel ->
  Site.run_sections (Site.site (browser s)) items <> [] ->
  starts_up s SrcDriver.driver_binary (SrcMainRun.arguments username profile_name) ->
  makedirs_raises "output/images" (make_dirs "output" (files s)) = None ->
  writable_pdf (path_join "output" pdf_filename) ->
  let run := SrcMainRun.main username profile_name config pdf_filename fuel s in
  fst run = Ok tt /\
  files (snd run) !! path_join "output" pdf_filename
  = Some (FPdf (pdf_page <$>
                (convert_rgb <$>
                 (Site.el_png <$> Site.run_sections (Site.site (browser s)) items)))) /\
  last (log (snd run)) = Some EvQuit.
Proof.
  intros Hload Hitems Hwalk Hsome Hstart Himages Hpdf run. unfold run.
  rewrite (src_main_run_started _ _ _ _ _ _ _ Hload Hstart).
  set (s0 := with_files (make_dirs Main.IMAGES_DIR) (started s)).
  assert (Hs0 : walkable (Site.site (browser s0)) items fuel) by exact Hwalk.
  destruct (site_collect_images items fuel s0 Hs0) as (s1 & Hcollect & Hfiles).
  change (Site.site (browser s0)) with (Site.site (browser s))
    in Hcollect, Hfiles.
  set (sections := Site.run_sections (Site.site (browser s)) items) in *.
  set (paths := img_path <$> seq 1 (length sections)) in *.
  assert (Hims : Forall2 (fun path im => files s1 !! path = Some (FImage im))
                         paths (Site.el_png <$> sections)).
  { rewrite Hfiles.
    replace (Site.el_png <$> sections) with (site_png <$> (Site.Node <$> sections))
      by (rewrite <- list_fmap_compose; reflexivity).
    apply write_captures_lookup; [apply img_paths_nodup|].
    unfold paths. now rewrite !length_fmap, length_seq. }
  assert (Hne : paths <> []).
  { unfold paths. destruct sections; [congruence | discriminate]. }
  assert (Hblock : SrcMainRun.try_block LINKS pdf_filename fuel (started s)
                   = (Ok tt,
                      State (browser s1)
                        (<[path_join "output" pdf_filename
                           := FPdf (pdf_page <$>
                                    (convert_rgb <$> (Site.el_png <$> sections)))]>
                           (files s1))
                        (log s1) (all_images s1) (global_step s1))).
  { rewrite (try_block_run_same items) by exact Hitems.
    unfold bind. rewrite (collect_images_made items fuel (started s) Himages).
    fold s0. rewrite Hcollect.
    exact (on_files_saved paths _ s1 _ Hpdf Hne Hims). }
  rewrite finally_quit by (rewrite Hblock; discriminate).
  rewrite Hblock. simpl. split; [reflexivity|].
  split; [apply lookup_insert_eq | apply last_snoc].
Qed.

Lemma site_run_to_pdf_witness :
  fst (SrcMainRun.main (host := Hosts.plain) (startup := Hosts.fair)
         "reader" "Default" "default" "result.pdf" 2
         (Site.start Demo.pages_of Demo.disk))
  = Ok tt /\
  files (snd (SrcMainRun.main (host := Hosts.plain) (startup := Hosts.fair)
                "reader" "Default" "default" "result.pdf" 2
                (Site.start Demo.pages_of Demo.disk))) !! "output/result.pdf"
  = Some (FPdf (replicate 6 (Image RGB (1, 1) [[10; 20; 30]%N]))).
Proof.
  pose proof (site_run_to_pdf (host := Hosts.plain) (startup := Hosts.fair)
                "reader" "Default" "default" "result.pdf" 2
                (Site.start Demo.pages_of Demo.disk)
                (YMap [ ("doc_1", YStr "https://example.com/first");
                        ("doc_2", YStr "https://example.com/second") ])
                Main.LINKS) as Hrun.
  destruct Hrun as (Hok & Hpdf & _).
  - reflexivity.
  - reflexivity.
  - unfold walkable. repeat constructor.
  - discriminate.
  - split; [reflexivity|]. split; [|reflexivity].
    eexists. split; reflexivity.
  - reflexivity.
  - split; reflexivity.
  - split; [exact Hok | exact Hpdf].
Defined.

(** ** Beyond the claims: runs that end without a PDF *)




(** X7.  A [links] key that is there but holds no mapping (null, a
    string, a list) is returned by [load_config] as it is, not replaced by
    the empty mapping; [collect_images] then fails on [LINKS.items()]
    with [AttributeError] before any page is loaded, and the session,
    which exists by then, is released. *)
Theorem links_not_a_mapping {B E} `{!WebDriver B E} {host : Host}
    (config pdf_filename : string) (fuel : nat) (s : state B E) (LINKS : yaml) :
  fst (SrcMain.load_config config (files s)) = Ok LINKS ->
  (forall entries, LINKS <> YMap entries) ->
  SrcMain.main config pdf_filename fuel s
  = (Raise AttributeError,
     released (emit (EvMakedirs "output/images") (begun s))).
Proof.
  intros Hload Hno. rewrite src_main_run, Hload.
  assert (Hblock : SrcMain.try_block LINKS pdf_filename fuel (begun s)
                   = (Raise AttributeError,
                      emit (EvMakedirs "output/images") (begun s))).
  { unfold SrcMain.try_block.
    destruct LINKS as [| | |entries]; try reflexivity.
    now destruct (Hno entries). }
  rewrite finally_quit by (rewrite Hblock; discriminate).
  now rewrite Hblock.
Qed.

Lemma links_not_a_mapping_witness :
  SrcMain.load_config "null" Inputs.null_links = (Ok YNull, Inputs.null_links) /\
  fst (SrcMain.main (host := Hosts.plain) "null" "result.pdf" 2
         (Site.start Demo.pages_of Inputs.null_links))
  = Raise AttributeError.
Proof.
  split; [reflexivity|].
  rewrite (links_not_a_mapping (host := Hosts.plain) "null" "result.pdf" 2
             (Site.start Demo.pages_of Inputs.null_links) YNull).
  - reflexivity.
  - reflexivity.
  - discriminate.
Defined.

(** ** Beyond the claims: where the configuration is read *)

Lemma prefix_slash_append name suffix :
  suffix <> "" -> String.prefix "/" suffix = false ->
  String.prefix "/" (name +:+ suffix) = String.prefix "/" name.
Proof.
  intros Hne Hsuf. destruct name as [|c name]; [exact Hsuf|].
  change (String.prefix "/" (String c (name +:+ suffix))
          = String.prefix "/" (String c name)).
  unfold String.prefix. destruct (Ascii.ascii_dec "/" c); [|reflexivity].
  generalize (name +:+ suffix). intros t. now destruct name, t.
Qed.

(** X8.  [load_config] reads one file and only that file.  For a name
    that does not start with a slash it is [configs/<name>.yaml]; a name
    that starts with a slash is not confined to [configs]: the file read
    is [<name>.yaml] itself.  The outcome depends on nothing else, and a
    missing file is a [FileNotFoundError]. *)
Theorem load_config_path (config_name : string) (fs : filesystem) :
  let config_path :=
    if String.prefix "/" config_name
    then config_name +:+ ".yaml"
    else "configs/" +:+ config_name +:+ ".yaml" in
  path_join "configs" (config_name +:+ ".yaml") = config_path /\
  (fst (SrcMain.load_config config_name fs) = Raise FileNotFoundError
   <-> fs !! config_path = None) /\
  (forall fs',
     fs' !! config_path = fs !! config_path ->
     fst (SrcMain.load_config config_name fs')
     = fst (SrcMain.load_config config_name fs)).
Proof.
  intros config_path.
  assert (Hpath : path_join "configs" (config_name +:+ ".yaml") = config_path).
  { unfold path_join, config_path.
    rewrite prefix_slash_append by (reflexivity || discriminate).
    destruct (String.prefix "/" config_name); reflexivity. }
  split; [exact Hpath|]. split.
  - unfold SrcMain.load_config. rewrite Hpath.
    destruct (fs !! config_path) as [[| |[]| | | |]|]; simpl; split;
      (reflexivity || discriminate).
  - intros fs' Hsame. unfold SrcMain.load_config. rewrite Hpath, Hsame.
    destruct (fs !! config_path) as [[| |[]| | | |]|]; reflexivity.
Qed.

(** ** Beyond the claims: the assembler and the disk *)

Lemma open_all_ok_readable images fs pil_images :
  Main.open_all images fs = Ok pil_images ->
  forallb (readable fs) images = true /\ length pil_images = length images.
Proof.
  revert pil_images. induction images as [|img rest IH]; intros pil_images; simpl.
  - intros [= <-]. split; reflexivity.
  - unfold image_open.
    destruct (fs !! img) as [[im| | | | | |]|] eqn:Hfile; try discriminate.
    destruct (Main.open_all rest fs) as [ims| |]; try discriminate.
    intros [= <-]. destruct (IH ims eq_refl) as [Hall Hlen]. split.
    + apply andb_true_intro. split; [|exact Hall].
      unfold readable. now rewrite Hfile.
    + simpl. now rewrite Hlen.
Qed.

Lemma open_all_ends images fs : Main.open_all images fs <> OutOfFuel.
Proof.
  induction images as [|img rest IH]; simpl; [discriminate|].
  unfold image_open.
  destruct (fs !! img) as [[im| | | | | |]|]; try discriminate.
  destruct (Main.open_all rest fs); try discriminate. congruence.
Qed.

(** X9.  When [images_to_pdf] returns.  It returns exactly when the list
    is not empty, every path of it holds an image, the extension of the
    output name is [.pdf] (in any letter case) or that of another format
    Pillow can write the images in, and the output file can be opened for
    writing.  In every other case it raises, and the disk is as it
    was. *)
Theorem images_to_pdf_returns_iff {host : Host}
    (images : list string) (pdf_path : string) (fs : filesystem) :
  let run := Main.images_to_pdf images pdf_path fs in
  (fst run = Ok tt
   <-> images <> [] /\
       forallb (readable fs) images = true /\
       (lower (splitext_ext pdf_path) = ".pdf" \/
        exists ims f,
          Main.open_all images fs = Ok ims /\
          save_as (lower (splitext_ext pdf_path)) ims = inr f) /\
       open_for_writing pdf_path = None) /\
  (fst run <> Ok tt -> exists e, run = (Raise e, fs)).
Proof.
  intros run. unfold run, Main.images_to_pdf.
  pose proof (open_all_ends images fs) as Hends.
  destruct (Main.open_all images fs) as [pil_images|e|] eqn:Hopen;
    [|clear Hends|congruence].
  - destruct (open_all_ok_readable _ _ _ Hopen) as [Hall Hlen].
    destruct pil_images as [|first rest].
    { destruct images; [|discriminate]. simpl. split.
      - split; [discriminate|]. now intros [Hne _].
      - intros _. now exists IndexError. }
    assert (Hne : images <> []) by (intros ->; discriminate).
    unfold image_save.
    destruct (String.eqb (lower (splitext_ext pdf_path)) ".pdf") eqn:Hext.
    + apply String.eqb_eq in Hext.
      destruct (open_for_writing pdf_path) as [e|]; simpl.
      * split; [|intros _; now exists e].
        split; [discriminate|]. now intros (_ & _ & _ & Hw).
      * split; [|congruence]. split; [|reflexivity]. intros _. auto.
    + apply String.eqb_neq in Hext.
      destruct (save_as _ (first :: rest)) as [e|f] eqn:Hsave; simpl.
      * split; [|intros _; now exists e].
        split; [discriminate|].
        intros (_ & _ & [Hpdf|(ims & f & Hims & Hf)] & _); [contradiction|].
        injection Hims as <-. congruence.
      * destruct (open_for_writing pdf_path) as [e|]; simpl.
        -- split; [|intros _; now exists e].
           split; [discriminate|]. now intros (_ & _ & _ & Hw).
        -- split; [|congruence]. split; [|reflexivity]. intros _.
           split; [exact Hne|]. split; [exact Hall|]. split; [|reflexivity].
           right. eauto.
  - simpl. split; [|intros _; now exists e].
    split; [discriminate|]. intros (_ & Hall & _).
    destruct (readable_images _ _ Hall) as [ims Hims].
    rewrite (open_all_readable _ _ _ Hims) in Hopen. discriminate.
Qed.

Lemma open_all_frame images fs fs' :
  (forall path, path ∈ images -> fs' !! path = fs !! path) ->
  Main.open_all images fs' = Main.open_all images fs.
Proof.
  induction images as [|img rest IH]; intros Hsame; simpl; [reflexivity|].
  unfold image_open. rewrite (Hsame img) by left.
  rewrite IH; [reflexivity|]. intros path Hin. apply Hsame. now right.
Qed.

(** X10.  [images_to_pdf] writes to [pdf_path] and to no other path,
    whether it returns or raises; and when the output path is not one of
    the images, assembling the same list again has the same outcome and
    leaves the same disk. *)
Theorem images_to_pdf_only_writes_pdf {host : Host}
    (images : list string) (pdf_path : string) (fs : filesystem) :
  let run := Main.images_to_pdf images pdf_path fs in
  (forall path, path <> pdf_path -> snd run !! path = fs !! path) /\
  (pdf_path ∉ images -> Main.images_to_pdf images pdf_path (snd run) = run).
Proof.
  intros run. unfold run, Main.images_to_pdf.
  destruct (Main.open_all images fs) as [[|first rest]|e|] eqn:Hopen; simpl.
  - split; [reflexivity|]. intros _. now rewrite Hopen.
  - split.
    + intros path Hne. now apply image_save_frame.
    + intros Hnot.
      rewrite (open_all_frame images fs), Hopen; [apply image_save_twice|].
      intros path Hin. apply image_save_frame. now intros ->.
  - split; [reflexivity|]. intros _. now rewrite Hopen.
  - split; [reflexivity|]. intros _. now rewrite Hopen.
Qed.

(** ** Beyond the claims: the order of the documents *)

Lemma gets_app {E} (l1 l2 : list (event E)) : gets (l1 ++ l2) = gets l1 ++ gets l2.
Proof.
  induction l1 as [|ev l1 IH]; simpl; [reflexivity|].
  destruct ev; simpl; rewrite ?IH; reflexivity.
Qed.

Lemma gets_none {E} (evs : list (event E)) :
  Forall (fun ev => gets [ev] = []) evs -> gets evs = [].
Proof.
  induction 1 as [|ev evs Hev _ IH]; [reflexivity|].
  change (ev :: evs) with ([ev] ++ evs). now rewrite gets_app, Hev, IH.
Qed.

Section Order.
Context {B E : Type} `{!WebDriver B E}.
Implicit Types (s : state B E).

Lemma logs_for_sections (P : event E -> Prop) sections :
  (forall section path, P (EvScreenshot section path)) ->
  (forall section, P (EvGetAttribute section "id")) ->
  logs (B:=B) P (Main.for_sections sections).
Proof.
  intros Hshot Hid. induction sections as [|section rest IH]; simpl.
  - apply logs_ret.
  - apply logs_bind; [now apply logs_capture | intros _; exact IH].
Qed.

(** Once a document is loaded, its pagination loads nothing. *)
Lemma loop_loads_nothing fuel :
  logs (B:=B) (fun ev => gets [ev] = []) (Main.pagination_loop fuel).
Proof.
  induction fuel as [|fuel IH]; simpl; [apply logs_spin|].
  apply logs_bind; [now apply logs_find | intros content].
  apply logs_bind; [now apply (logs_one _ _ (EvFindAll content Main.sections_locator))
                   | intros sections].
  destruct sections as [|section rest]; [apply logs_ret|].
  apply logs_bind; [now apply logs_for_sections | intros _].
  apply logs_bind; [now apply logs_find | intros next_btn].
  apply logs_bind; [now apply (logs_one _ _ (EvGetAttribute next_btn "class"))
                   | intros [classes|]]; [|apply logs_raise].
  destruct (str_in "disabled" classes); [apply logs_ret|].
  apply logs_bind; [now apply (logs_one _ _ (EvClick next_btn)) | intros _].
  apply logs_bind; [now apply logs_wait | intros _].
  apply logs_bind; [now apply (logs_one _ _ (EvSleep 1)) | intros _].
  exact IH.
Qed.

Lemma document_loads_once url fuel s :
  exists evs,
    log (snd (Main.process_document url fuel s)) = log s ++ evs /\
    gets evs = [url].
Proof.
  unfold Main.process_document. unfold bind at 1. unfold driver_get at 1.
  set (rest := bind (wait_until _ _) _).
  assert (Hrest : logs (fun ev => gets [ev] = []) rest).
  { apply logs_bind; [now apply logs_wait | intros _].
    apply logs_bind; [now apply (logs_one _ _ (EvSleep 1)) | intros _].
    apply loop_loads_nothing. }
  destruct (Hrest (loaded url s)) as (evs & Hlog & Hnone).
  exists (EvGet url :: evs). fold (loaded url s). rewrite Hlog. simpl.
  split; [now rewrite <- app_assoc|]. now rewrite (gets_none _ Hnone).
Qed.

Lemma links_load_in_order links fuel : forall s,
  exists evs,
    log (snd (Main.for_links links fuel s)) = log s ++ evs /\
    gets evs `prefix_of` links.*2 /\
    match fst (Main.for_links links fuel s) with
    | Ok _ => gets evs = links.*2
    | _ => True
    end.
Proof.
  induction links as [|[name url] rest IH]; intros s.
  - exists []. simpl. rewrite app_nil_r. repeat split. reflexivity.
  - rewrite for_links_cons.
    destruct (document_loads_once url fuel s) as (evs1 & Hlog1 & Hget1).
    destruct (Main.process_document url fuel s) as [[r|e|] s1]; simpl in Hlog1.
    + destruct (IH s1) as (evs2 & Hlog2 & Hpre & Hok).
      exists (evs1 ++ evs2). rewrite Hlog2, Hlog1, gets_app, Hget1. simpl.
      split; [now rewrite app_assoc|]. split.
      * now apply prefix_cons.
      * destruct (fst (Main.for_links rest fuel s1)); [now rewrite Hok | exact I..].
    + exists evs1. simpl. rewrite Hget1. repeat split; [exact Hlog1|].
      apply prefix_cons, prefix_nil.
    + exists evs1. simpl. rewrite Hget1. repeat split; [exact Hlog1|].
      apply prefix_cons, prefix_nil.
Qed.

End Order.

(** X11.  [collect_images] loads the documents in the order of the
    mapping and loads none twice: the URLs passed to [driver.get] are a
    prefix of the URLs of [links] whatever the browser does and however
    the run ends, and all of them, each once, when the run returns.  The
    pagination of a document never loads a URL. *)
Theorem documents_load_in_order {B E} `{!WebDriver B E}
    (links : list (string * string)) (fuel : nat) (s : state B E) :
  let run := Main.collect_images links fuel s in
  exists evs,
    log (snd run) = log s ++ evs /\
    gets evs `prefix_of` links.*2 /\
    match fst run with
    | Ok _ => gets evs = links.*2
    | _ => True
    end.
Proof.
  intros run. unfold run, Main.collect_images, makedirs.
  unfold bind at 1 2. unfold bind at 1 2. unfold bind.
  set (s0 := Main.init_locals _).
  destruct (links_load_in_order links fuel s0) as (evs & Hlog & Hpre & Hok).
  exists (EvMakedirs Main.IMAGES_DIR :: evs).
  destruct (Main.for_links links fuel s0) as [[[]|e|] s1]; simpl in *;
    (split; [rewrite Hlog; unfold s0; simpl; now rewrite <- app_assoc|]);
    split; assumption.
Qed.

(** ** Beyond the claims: what counts as a disabled control *)

Lemma prefix_nil_l s : String.prefix "" s = true.
Proof. now destruct s. Qed.

Lemma prefix_cons_same c p s :
  String.prefix (String c p) (String c s) = String.prefix p s.
Proof.
  unfold String.prefix at 1. destruct (Ascii.ascii_dec c c); [|congruence].
  reflexivity.
Qed.

Lemma prefix_append p post : String.prefix p (p +:+ post) = true.
Proof.
  induction p as [|c p IH]; [apply prefix_nil_l|].
  change (String.prefix (String c p) (String c (p +:+ post)) = true).
  now rewrite prefix_cons_same.
Qed.

Lemma prefix_split p s :
  String.prefix p s = true -> exists post, s = p +:+ post.
Proof.
  revert s. induction p as [|c p IH]; intros s Hpre.
  - exists s. reflexivity.
  - destruct s as [|d s]; [discriminate|].
    unfold String.prefix in Hpre. fold String.prefix in Hpre.
    destruct (Ascii.ascii_dec c d) as [->|]; [|discriminate].
    destruct (IH s Hpre) as [post ->]. exists post. reflexivity.
Qed.

Lemma str_in_unfold sub s :
  str_in sub s
  = (String.prefix sub s ||
     match s with "" => false | String _ s' => str_in sub s' end)%bool.
Proof. now destruct s. Qed.

Lemma str_in_cons sub c s :
  str_in sub (String c s) = (String.prefix sub (String c s) || str_in sub s)%bool.
Proof. reflexivity. Qed.

Lemma str_in_append sub before after :
  str_in sub (before +:+ sub +:+ after) = true.
Proof.
  induction before as [|c before IH].
  - rewrite str_in_unfold.
    change ("" +:+ sub +:+ after) with (sub +:+ after).
    now rewrite prefix_append.
  - change (String c before +:+ sub +:+ after)
      with (String c (before +:+ sub +:+ after)).
    rewrite str_in_cons, IH. apply orb_true_r.
Qed.

Lemma str_in_split sub s :
  str_in sub s = true -> exists before after, s = before +:+ sub +:+ after.
Proof.
  induction s as [|c s IH]; intros Hin.
  - rewrite str_in_unfold, orb_false_r in Hin.
    destruct (prefix_split _ _ Hin) as [after Heq].
    exists "", after. exact Heq.
  - rewrite str_in_cons in Hin. apply orb_prop in Hin as [Hpre|Hrest].
    + destruct (prefix_split _ _ Hpre) as [after ->]. exists "", after. reflexivity.
    + destruct (IH Hrest) as (before & after & ->).
      exists (String c before), after. reflexivity.
Qed.

(** X12.  The test on the next-page control is a test on letters, not on
    class names: a class attribute that has [disabled] anywhere in it,
    also inside a longer word, ends the document after the captures of
    the page, without a click. *)
Theorem disabled_anywhere_in_class {B E} `{!WebDriver B E}
    (fuel : nat) (s : state B E) (content section : E) (rest : list E)
    (next_btn : E) (before after : string) :
  find_element Main.content_locator (browser s) = Some content ->
  find_elements_in content Main.sections_locator (browser s) = section :: rest ->
  find_element Main.next_locator (browser s) = Some next_btn ->
  get_attribute next_btn "class" (browser s)
  = Some (before +:+ "disabled" +:+ after) ->
  Main.pagination_loop (S fuel) s
  = (Ok NextDisabled,
     next_checked next_btn (page_captured content (section :: rest) s)) /\
  (forall classes,
     str_in "disabled" classes = true
     <-> exists before after, classes = before +:+ "disabled" +:+ after).
Proof.
  intros Hcontent Hsections Hnext Hclass. split.
  - rewrite (loop_next fuel s content section rest next_btn Hcontent Hsections Hnext).
    cbv zeta. rewrite Hclass. now rewrite str_in_append.
  - intros classes. split; [apply str_in_split|].
    intros (b & a & ->). apply str_in_append.
Qed.

Lemma disabled_anywhere_in_class_witness :
  fst (Main.pagination_loop 2 Inputs.odd_opened) = Ok NextDisabled.
Proof.
  refine (f_equal fst
            (proj1 (disabled_anywhere_in_class 1 Inputs.odd_opened
                      (Site.Container [Demo.sec "1"]) (Site.Node (Demo.sec "1")) []
                      (Site.Node Inputs.next_odd) "btn-un" "-hover" _ _ _ _))).
  - reflexivity.
  - reflexivity.
  - reflexivity.
  - reflexivity.
Defined.

(** ** Beyond the claims: the driver binary *)

Lemma drop_str_append a b : drop_str (String.length a) (a +:+ b) = b.
Proof. induction a as [|c a IH]; simpl; [now destruct b | exact IH]. Qed.

Lemma endswith_append dir suffix : endswith (dir +:+ suffix) suffix = true.
Proof.
  unfold endswith. rewrite append_length.
  replace (String.length dir + String.length suffix - String.length suffix)
    with (String.length dir) by lia.
  rewrite drop_str_append, String.eqb_refl.
  apply andb_true_intro. split; [apply Nat.leb_le; lia | reflexivity].
Qed.

Lemma prefix_append_short p : forall u v,
  String.length p <= String.length u ->
  String.prefix p (u +:+ v) = String.prefix p u.
Proof.
  induction p as [|c p IH]; intros u v Hlen.
  - now rewrite !prefix_nil_l.
  - destruct u as [|d u]; [simpl in Hlen; lia|].
    change (String.prefix (String c p) (String d (u +:+ v))
            = String.prefix (String c p) (String d u)).
    unfold String.prefix. fold String.prefix.
    destruct (Ascii.ascii_dec c d); [|reflexivity].
    apply IH. simpl in Hlen. lia.
Qed.

Lemma append_assoc_str (a b c : string) : (a +:+ b) +:+ c = a +:+ (b +:+ c).
Proof.
  induction a as [|x a IH]; [reflexivity|].
  change (String x ((a +:+ b) +:+ c) = String x (a +:+ (b +:+ c))).
  now rewrite IH.
Qed.

Lemma replace_notices_at_end dir :
  str_in SrcDriver.notices (dir +:+ "THIRD_PARTY_NOTICES.chromedrive") = false ->
  replace_from SrcDriver.notices "chromedriver" 0 (dir +:+ SrcDriver.notices)
  = dir +:+ "chromedriver".
Proof.
  induction dir as [|c dir IH]; intros Hnot; [reflexivity|].
  change (String c dir +:+ "THIRD_PARTY_NOTICES.chromedrive")
    with (String c (dir +:+ "THIRD_PARTY_NOTICES.chromedrive")) in Hnot.
  rewrite str_in_cons in Hnot. apply orb_false_elim in Hnot as [Hpre Hrest].
  change (String c dir +:+ SrcDriver.notices)
    with (String c (dir +:+ SrcDriver.notices)).
  assert (Hhere : String.prefix SrcDriver.notices (String c (dir +:+ SrcDriver.notices))
                  = false).
  { rewrite <- Hpre.
    change (String c (dir +:+ SrcDriver.notices))
      with (String c dir +:+ SrcDriver.notices).
    replace (String c dir +:+ SrcDriver.notices)
      with ((String c dir +:+ "THIRD_PARTY_NOTICES.chromedrive") +:+ "r").
    - apply prefix_append_short. simpl. rewrite append_length. simpl. lia.
    - now rewrite append_assoc_str. }
  change (replace_from SrcDriver.notices "chromedriver" 0
            (String c (dir +:+ SrcDriver.notices)))
    with (if String.prefix SrcDriver.notices (String c (dir +:+ SrcDriver.notices))
          then "chromedriver"
               +:+ replace_from SrcDriver.notices "chromedriver"
                     (String.length SrcDriver.notices - 1) (dir +:+ SrcDriver.notices)
          else String c (replace_from SrcDriver.notices "chromedriver" 0
                           (dir +:+ SrcDriver.notices))).
  rewrite Hhere, (IH Hrest). reflexivity.
Qed.

(** X13.  The path [create_driver] of [src/main.py] hands to the Chrome
    service: a path that does not end in
    [THIRD_PARTY_NOTICES.chromedriver] is used as it is; a path that ends
    in it, and has it nowhere else, becomes the path of the file
    [chromedriver] that lies in the same directory. *)
Theorem driver_binary_beside_notices (dir : string) :
  str_in SrcDriver.notices (dir +:+ "THIRD_PARTY_NOTICES.chromedrive") = false ->
  SrcDriver.driver_binary (dir +:+ "THIRD_PARTY_NOTICES.chromedriver")
  = dir +:+ "chromedriver" /\
  (forall path, endswith path "THIRD_PARTY_NOTICES.chromedriver" = false ->
                SrcDriver.driver_binary path = path).
Proof.
  intros Hnot. split.
  - unfold SrcDriver.driver_binary.
    change "THIRD_PARTY_NOTICES.chromedriver" with SrcDriver.notices.
    rewrite endswith_append. unfold str_replace.
    change (match SrcDriver.notices with
            | "" => interleave "chromedriver" (dir +:+ SrcDriver.notices)
            | String _ _ => replace_from SrcDriver.notices "chromedriver" 0
                              (dir +:+ SrcDriver.notices)
            end)
      with (replace_from SrcDriver.notices "chromedriver" 0
              (dir +:+ SrcDriver.notices)).
    now apply replace_notices_at_end.
  - intros path Hend. unfold SrcDriver.driver_binary.
    change SrcDriver.notices with "THIRD_PARTY_NOTICES.chromedriver".
    now rewrite Hend.
Qed.

Lemma driver_binary_beside_notices_witness :
  SrcDriver.driver_binary
    "/Users/me/.wdm/drivers/chromedriver/mac64/131.0.6778.85/chromedriver-mac-arm64/THIRD_PARTY_NOTICES.chromedriver"
  = "/Users/me/.wdm/drivers/chromedriver/mac64/131.0.6778.85/chromedriver-mac-arm64/chromedriver".
Proof.
  refine (proj1 (driver_binary_beside_notices Inputs.driver_dir _)).
  vm_compute. reflexivity.
Defined.

(** ** Beyond the claims: the packaged entry point on the built-in table *)

Lemma bind_ext {S A A'} (m : M S A) (k k' : A -> M S A') s :
  (forall a s', k a s' = k' a s') -> bind m k s = bind m k' s.
Proof.
  intros Hk. unfold bind. destruct (m s) as [[a|e|] s']; [apply Hk|reflexivity..].
Qed.

Lemma try_finally_ext {S A} (body body' : M S A) cleanup s :
  body s = body' s -> try_finally body cleanup s = try_finally body' cleanup s.
Proof. intros Hbody. unfold try_finally. now rewrite Hbody. Qed.

(** X14.  [src/main.py] run on a configuration whose [links] are the
    table that [main.py] has built in does what [main.py] does, the same
    outcome, the same calls on the browser, the same files, for every
    browser and host, as long as the driver manager does not hand out
    the notices file.  When it does, the two part in [create_driver]:
    [main.py] starts Chrome on the path it was given, [src/main.py] on
    the driver beside it; where the first fails before any session
    exists, the second goes on to the PDF. *)
Theorem packaged_main_on_builtin_links :
  (forall {B E} `{!WebDriver B E} {host : Host} {startup : Startup B}
          (username profile_name config pdf_filename : string) (fuel : nat)
          (s : state B E) (LINKS : yaml),
     fst (SrcMain.load_config config (files s)) = Ok LINKS ->
     SrcMain.links_items LINKS = Some Main.LINKS ->
     (forall driver_path,
        install = inr driver_path ->
        endswith driver_path "THIRD_PARTY_NOTICES.chromedriver" = false) ->
     SrcMainRun.main username profile_name config pdf_filename fuel s
     = MainRun.main username profile_name pdf_filename fuel s) /\
  (let s := Site.start Demo.pages_of Demo.disk in
   SrcMain.links_items
     (dict_get "links"
        [ ("title", YStr "books");
          ("links", YMap [ ("doc_1", YStr "https://example.com/first");
                           ("doc_2", YStr "https://example.com/second") ]) ]
        (YMap []))
   = Some Main.LINKS /\
   MainRun.main (host := Hosts.plain) (startup := Hosts.notices_first)
     "reader" "Default" "result.pdf" 2 s
   = (Raise WebDriverException,
      with_files (make_dirs "output") (emit (EvMakedirs "output") s)) /\
   fst (SrcMainRun.main (host := Hosts.plain) (startup := Hosts.notices_first)
          "reader" "Default" "default" "result.pdf" 2 s)
   = Ok tt).
Proof.
  split.
  - intros B E WD host startup username profile_name config pdf_filename fuel
           s LINKS Hload Hitems Hdriver.
    unfold SrcMainRun.main, MainRun.main.
    unfold bind at 1. unfold on_files.
    pose proof (load_config_reads config (files s)) as Hfs.
    destruct (SrcMain.load_config config (files s)) as [r fs]. simpl in Hfs, Hload.
    subst fs r.
    replace (State (browser s) (files s) (log s) (all_images s) (global_step s))
      with s by now destruct s.
    apply bind_ext. intros _ s1.
    assert (Hcreate : SrcMainRun.create_driver username profile_name s1
                      = MainRun.create_driver username profile_name s1).
    { unfold SrcMainRun.create_driver, MainRun.create_driver, bind,
        driver_manager_install.
      destruct install as [e|driver_path] eqn:Hinstall; [reflexivity|].
      unfold SrcDriver.driver_binary, SrcDriver.notices.
      now rewrite (Hdriver driver_path eq_refl). }
    unfold bind at 1 3. rewrite Hcreate.
    destruct (MainRun.create_driver username profile_name s1) as [[[]|e|] s2];
      [|reflexivity|reflexivity].
    apply bind_ext. intros _ s3. apply try_finally_ext.
    rewrite (try_block_run_same Main.LINKS) by exact Hitems. reflexivity.
  - cbv zeta. split; [reflexivity|]. split; vm_compute; reflexivity.
Qed.

Lemma packaged_main_on_builtin_links_witness :
  SrcMainRun.main (host := Hosts.plain) (startup := Hosts.fair)
    "reader" "Default" "default" "result.pdf" 2 (Site.start Demo.pages_of Demo.disk)
  = MainRun.main (host := Hosts.plain) (startup := Hosts.fair)
      "reader" "Default" "result.pdf" 2 (Site.start Demo.pages_of Demo.disk).
Proof.
  refine (proj1 packaged_main_on_builtin_links _ _ _ Hosts.plain Hosts.fair
            "reader" "Default" "default" "result.pdf" 2
            (Site.start Demo.pages_of Demo.disk)
            (YMap [ ("doc_1", YStr "https://example.com/first");
                    ("doc_2", YStr "https://example.com/second") ]) _ _ _).
  - reflexivity.
  - reflexivity.
  - intros driver_path [= <-]. vm_compute. reflexivity.
Defined.

(** ** Beyond the claims: a document without end *)

(** X15.  The pagination loop has no page limit of its own.  On a
    browser that keeps showing a page with a section and an enabled
    next-page control after every click, the loop never returns and never
    raises: whatever the bound on its turns, it uses them all. *)
Theorem pagination_has_no_bound {B E} `{!WebDriver B E}
    (unending : B -> Prop) :
  (forall b, unending b ->
     exists content section rest next_btn classes b',
       find_element Main.content_locator b = Some content /\
       find_elements_in content Main.sections_locator b = section :: rest /\
       find_element Main.next_locator b = Some next_btn /\
       get_attribute next_btn "class" b = Some classes /\
       str_in "disabled" classes = false /\
       until_present Main.WAIT Main.content_locator (click next_btn b) = Some b' /\
       unending (idle 1 b')) ->
  forall fuel (s : state B E),
    unending (browser s) ->
    fst (Main.pagination_loop fuel s) = OutOfFuel.
Proof.
  intros Hstep fuel. induction fuel as [|fuel IH]; intros s Hs; [reflexivity|].
  destruct (Hstep _ Hs)
    as (content & section & rest & next_btn & classes & b'
        & Hcontent & Hsections & Hnext & Hclass & Hon & Hwait & Hb').
  rewrite (loop_next fuel s content section rest next_btn Hcontent Hsections Hnext).
  cbv zeta. rewrite Hclass, Hon.
  change (browser (clicked next_btn
                     (next_checked next_btn
                        (page_captured content (section :: rest) s))))
    with (click next_btn (browser s)).
  rewrite Hwait. apply IH. exact Hb'.
Qed.

Lemma pagination_has_no_bound_witness :
  fst (Main.pagination_loop 25 Endless.start) = OutOfFuel.
Proof.
  refine (pagination_has_no_bound (fun _ : nat => True) _ 25 Endless.start I).
  intros b _.
  exists Endless.Content, (Endless.Part b), [], Endless.Next, "btn", (S b).
  repeat split.
Defined.

(** ** Beyond the claims: the file names in a directory listing *)

Lemma compare_lt_trans (x y z : string) :
  String.compare x y = Lt -> String.compare y z = Lt -> String.compare x z = Lt.
Proof.
  intros Hxy Hyz.
  apply OrderedTypeEx.String_as_OT.cmp_lt.
  apply (OrderedTypeEx.String_as_OT.lt_trans x y z);
    now apply OrderedTypeEx.String_as_OT.cmp_lt.
Qed.

Lemma img_path_digits k :
  img_path k = img_path_of_digits (Nat.to_little_uint k Decimal.zero).
Proof. reflexivity. Qed.

Lemma to_little_uint_succ n : forall acc,
  Nat.to_little_uint n (Decimal.Little.succ acc)
  = Decimal.Little.succ (Nat.to_little_uint n acc).
Proof.
  induction n as [|n IH]; intros acc; [reflexivity|].
  simpl. now rewrite IH.
Qed.

Lemma sorted_run_sorts count : forall k,
  sorted_run count (Nat.to_little_uint k Decimal.zero) = true ->
  forall j, j < count ->
    String.compare (img_path (k + j)) (img_path (S (k + j))) = Lt.
Proof.
  induction count as [|count IH]; intros k Hrun j Hj; [lia|].
  simpl in Hrun. apply andb_prop in Hrun as [Hhead Htail].
  rewrite <- to_little_uint_succ in Hhead, Htail.
  change (Nat.to_little_uint k (Decimal.Little.succ Decimal.zero))
    with (Nat.to_little_uint (S k) Decimal.zero) in Hhead, Htail.
  rewrite <- !img_path_digits in Hhead.
  destruct j as [|j].
  - rewrite Nat.add_0_r.
    destruct (String.compare (img_path k) (img_path (S k)));
      [discriminate | reflexivity | discriminate].
  - replace (k + S j) with (S k + j) by lia. apply (IH (S k) Htail). lia.
Qed.

Lemma img_path_next_sorts n :
  S n < 100 * 100 -> String.compare (img_path n) (img_path (S n)) = Lt.
Proof.
  intros Hn.
  assert (Hrun : sorted_run (100 * 100 - 1) (Nat.to_little_uint 0 Decimal.zero) = true)
    by (vm_compute; reflexivity).
  apply (sorted_run_sorts _ 0 Hrun n). lia.
Qed.

(** X16.  Up to 9999 captures, the names of the capture files sort in
    capture order: comparing two paths as strings gives the order of
    their sequence numbers, so that a sorted listing of [output/images]
    is the page order.  The padding to four digits is what this rests on:
    the path of capture 10000 sorts before that of capture 9999. *)
Theorem capture_names_sort_in_capture_order (a b : nat) :
  a < b -> b < 100 * 100 ->
  String.ltb (img_path a) (img_path b) = true /\
  String.ltb (img_path (100 * 100)) (img_path (100 * 100 - 1)) = true.
Proof.
  intros Hab Hb. split; [|vm_compute; reflexivity].
  unfold String.ltb.
  enough (Hlt : String.compare (img_path a) (img_path b) = Lt) by now rewrite Hlt.
  induction b as [|b IH]; [lia|].
  destruct (decide (a = b)) as [->|Hne].
  - now apply img_path_next_sorts.
  - apply (compare_lt_trans _ (img_path b)).
    + apply IH; lia.
    + now apply img_path_next_sorts.
Qed.

Lemma capture_names_sort_in_capture_order_witness :
  9 < 10 /\ 10 < 100 * 100 /\ String.ltb (img_path 9) (img_path 10) = true.
Proof.
  assert (H1 : 9 < 10) by lia. assert (H2 : 10 < 100 * 100) by lia.
  split; [exact H1|]. split; [exact H2|].
  exact (proj1 (capture_names_sort_in_capture_order 9 10 H1 H2)).
Defined.

(** ** Beyond the claims: how a run ends *)

Section Exits.
Context {B E : Type} `{!WebDriver B E} {host : Host} {startup : Startup B}.
Implicit Types (s : state B E).




End Exits.



(** ** Beyond the claims: a page that does not come *)


